(** * Dataset validation and pipeline-ready reshaping

    A shallow embedding of [scripts/data-validation.py]: the validator
    [PipelineDataValidator.validate_all] and the transformer
    [create_pipeline_ready_data], together with the part of the tabular
    library (column access, missing values, [pivot_table], [ffill],
    [bfill], [fillna]) that the two functions call.

    Conventions of the model.
    - A table cell is a number, a string, or missing ([NaN]).  Numbers are
      exact rationals; floating-point rounding is not modelled.
    - A table is a list of column names with a list of rows; a row maps a
      column name to its value, and a name without a value is a missing
      cell.
    - Exceptions are values of an error type, threaded by a small monad. *)

From Stdlib Require Import QArith Sorted.
From stdpp Require Import gmap strings list fin_maps.

Local Open Scope string_scope.

(** ** Scalars and cells *)

Inductive scalar :=
  | Num (q : Q)
  | Str (s : string).

Arguments Num q%_Q.

(** A cell of a table; [None] is a missing value. *)
Abbreviation cell := (option scalar).
Abbreviation NaN := (@None scalar).

(** A row of a table read from CSV, keyed by column name. *)
Abbreviation row := (gmap string scalar).

Record DataFrame := {
  df_columns : list string;
  df_rows : list row
}.

(** Equality of scalars as the interpreter decides it: numbers by value
    ([5 == 5.0]), strings by content, a number never equals a string. *)
Definition scalar_eqb (a b : scalar) : bool :=
  match a, b with
  | Num x, Num y => Qeq_bool x y
  | Str s, Str t => String.eqb s t
  | _, _ => false
  end.

Definition Qlt_bool (x y : Q) : bool := negb (Qle_bool y x).

(** Order used to sort an index: numbers by value, strings
    lexicographically. *)
Definition scalar_leb (a b : scalar) : bool :=
  match a, b with
  | Num x, Num y => Qle_bool x y
  | Str s, Str t => String.leb s t
  | Num _, Str _ => true
  | Str _, Num _ => false
  end.

Definition is_num (c : cell) : bool :=
  match c with
  | Some (Str _) => false
  | _ => true
  end.

Definition isna (c : cell) : bool :=
  match c with
  | None => true
  | Some _ => false
  end.

Definition notna (c : cell) : bool := negb (isna c).

(** ** Exceptions *)

(** [KeyError key] is the exception of a lookup by one label;
    [KeyErrorLabels absent] is the [KeyError] of a lookup by a list of
    labels, whose message names every label that is absent. *)
Inductive exn :=
  | KeyError (key : string)
  | KeyErrorLabels (absent : list string)
  | TypeError
  | FileNotFoundError (name : string).

Inductive result (A : Type) :=
  | Ok (a : A)
  | Raise (e : exn).

Arguments Ok {A} a.
Arguments Raise {A} e.

#[global] Instance result_ret : MRet result := fun A a => Ok a.

#[global] Instance result_bind : MBind result := fun A B k m =>
  match m with
  | Ok a => k a
  | Raise e => Raise e
  end.

(** [try m except Exception: h] *)
Definition try_except {A} (m : result A) (h : A) : A :=
  match m with
  | Ok a => a
  | Raise _ => h
  end.

(** ** Column access *)

Definition has_column (df : DataFrame) (c : string) : bool :=
  bool_decide (c ∈ df_columns df).

(** [df[c]]: the column as a series, [KeyError] when it is absent. *)
Definition getitem (df : DataFrame) (c : string) : result (list cell) :=
  if has_column df c then Ok (map (fun r : row => r !! c) (df_rows df))
  else Raise (KeyError c).

(** The labels of [cs] that are not columns of [df], in the order of
    [cs]. *)
Definition absent_labels (df : DataFrame) (cs : list string) : list string :=
  List.filter (fun c => negb (has_column df c)) cs.

(** [df[[c1, ..., cn]]]: the sub-table; when labels are absent, one
    [KeyError] that names all of them. *)
Definition getitems (df : DataFrame) (cs : list string) : result (list (list cell)) :=
  match absent_labels df cs with
  | [] => Ok (map (fun c => map (fun r : row => r !! c) (df_rows df)) cs)
  | absent => Raise (KeyErrorLabels absent)
  end.

(** [df[mask]] for a row predicate. *)
Definition select (p : row -> bool) (df : DataFrame) : DataFrame :=
  {| df_columns := df_columns df; df_rows := List.filter p (df_rows df) |}.

(** [pd.read_csv(data_dir / name)] *)
Definition read_csv (data_dir : gmap string DataFrame) (name : string) : result DataFrame :=
  match data_dir !! name with
  | Some df => Ok df
  | None => Raise (FileNotFoundError name)
  end.

(** * The tabular library

    The functions of the data-frame library that the script calls, with
    the defaults the script leaves in place. *)

(** ** Sorted indexes *)

Section SortUnique.
Context {A : Type} (eqb leb : A -> A -> bool).

(** Insertion into an ascending list without duplicates. *)
Fixpoint insert_unique (x : A) (l : list A) : list A :=
  match l with
  | [] => [x]
  | y :: l' =>
      if eqb x y then y :: l'
      else if leb x y then x :: y :: l'
      else y :: insert_unique x l'
  end.

(** The distinct values of [l], ascending. *)
Definition sort_unique (l : list A) : list A :=
  foldr insert_unique [] l.
End SortUnique.

(** A group key of the pivot: (index value, column value). *)
Abbreviation key := (scalar * scalar)%type.

Definition key_eqb (a b : key) : bool :=
  scalar_eqb a.1 b.1 && scalar_eqb a.2 b.2.

Definition key_leb (a b : key) : bool :=
  if scalar_eqb a.1 b.1 then scalar_leb a.2 b.2 else scalar_leb a.1 b.1.

(** ** Aggregation *)

Inductive aggfunc := Mean | Max.

(** Missing values are skipped by every reduction. *)
Definition dropna (vs : list cell) : list scalar := omap id vs.

Definition to_num (s : scalar) : option Q :=
  match s with
  | Num q => Some q
  | Str _ => None
  end.

Definition Qsum (qs : list Q) : Q := foldr Qplus 0%Q qs.

(** Quotient of two counts or sums as a float: [NaN] for [0 / 0]. *)
Definition fdiv (x : Q) (n : nat) : option Q :=
  match n with
  | O => None
  | S _ => Some (Qred (x / inject_Z (Z.of_nat n)))
  end.

Definition nanmean (vs : list cell) : cell :=
  let qs := omap to_num (dropna vs) in
  Num <$> fdiv (Qsum qs) (length qs).

Definition scalar_max (a b : scalar) : scalar :=
  if scalar_leb a b then b else a.

Definition nanmax (vs : list cell) : cell :=
  match dropna vs with
  | [] => None
  | v :: vs' => Some (foldl scalar_max v vs')
  end.

Definition aggregate (f : aggfunc) : list cell -> cell :=
  match f with
  | Mean => nanmean
  | Max => nanmax
  end.

(** ** Matrices (tables indexed by row and column labels) *)

Record Matrix := {
  mx_index : list scalar;
  mx_columns : list scalar;
  mx_values : list (list cell)
}.

Definition shape (m : Matrix) : nat * nat :=
  (length (mx_index m), length (mx_columns m)).

Definition matrix_size (m : Matrix) : nat := (shape m).1 * (shape m).2.

(** [m.isna().sum().sum()] *)
Definition count_nan (vals : list (list cell)) : nat :=
  length (List.filter isna (concat vals)).

(** ** pivot_table *)

(** The rows a group-by keeps: those whose two key cells are both
    present, as (key, value cell). *)
Definition keyed_rows (index columns values : string) (rows : list row)
  : list (key * cell) :=
  omap (fun r : row =>
          match r !! index, r !! columns with
          | Some o, Some e => Some ((o, e), r !! values)
          | _, _ => None
          end) rows.

Definition group (k : key) (keyed : list (key * cell)) : list cell :=
  map snd (List.filter (fun kv => key_eqb k kv.1) keyed).

(** [data.groupby(keys).agg(f)], one entry per distinct key, ascending. *)
Definition groupby_agg (f : aggfunc) (keyed : list (key * cell))
  : list (key * cell) :=
  map (fun k => (k, aggregate f (group k keyed)))
      (sort_unique key_eqb key_leb (map fst keyed)).

(** [agged.dropna(how="all")]: groups whose aggregate is missing go. *)
Definition dropna_groups (agged : list (key * cell)) : list (key * cell) :=
  List.filter (fun kv => notna kv.2) agged.

Definition lookup_key (k : key) (agged : list (key * cell)) : cell :=
  match List.find (fun kv => key_eqb k kv.1) agged with
  | Some kv => kv.2
  | None => None
  end.

(** [agged.unstack(columns)] followed by [sort_index(axis=1)]. *)
Definition unstack (agged : list (key * cell)) : Matrix :=
  let idx := sort_unique scalar_eqb scalar_leb (map (fun kv => kv.1.1) agged) in
  let cols := sort_unique scalar_eqb scalar_leb (map (fun kv => kv.1.2) agged) in
  {| mx_index := idx;
     mx_columns := cols;
     mx_values := map (fun o => map (fun e => lookup_key (o, e) agged) cols) idx |}.

(** Keeps the positions of [l] where [mask] is true. *)
Definition compress {A} (mask : list bool) (l : list A) : list A :=
  map snd (List.filter fst (zip mask l)).

Definition column_observed (vals : list (list cell)) (j : nat) : bool :=
  existsb (fun r : list cell => notna (mjoin (r !! j))) vals.

(** [table.dropna(how="all", axis=1)]: columns with no observed cell go. *)
Definition dropna_columns (m : Matrix) : Matrix :=
  let mask := map (column_observed (mx_values m)) (seq 0 (length (mx_columns m))) in
  {| mx_index := mx_index m;
     mx_columns := compress mask (mx_columns m);
     mx_values := map (compress mask) (mx_values m) |}.

(** [df.pivot_table(index=, columns=, values=, aggfunc=)] with the
    library's defaults ([dropna=True], [sort=True], no fill value): rows
    with a missing key are left out of the groups, groups and columns
    whose values are all missing are dropped, and both axes are sorted.
    The value label is looked up first, then the group keys; the mean of
    a column holding strings is a [TypeError]; a table without groups
    pivots to the empty matrix. *)
Definition pivot_table (df : DataFrame) (index columns values : string)
    (f : aggfunc) : result Matrix :=
  vs ← getitem df values;
  _ ← getitem df index;
  _ ← getitem df columns;
  match f with
  | Mean => if forallb is_num vs then Ok () else Raise TypeError
  | Max => Ok ()
  end;;
  let keyed := keyed_rows index columns values (df_rows df) in
  Ok (dropna_columns (unstack (dropna_groups (groupby_agg f keyed)))).

(** ** Filling missing cells *)

Fixpoint ffill_from (last : cell) (l : list cell) : list cell :=
  match l with
  | [] => []
  | Some v :: l' => Some v :: ffill_from (Some v) l'
  | None :: l' => last :: ffill_from last l'
  end.

(** Forward fill: a missing cell takes the most recent observed value. *)
Definition ffill_row (l : list cell) : list cell := ffill_from None l.

(** Backward fill: a missing cell takes the next observed value. *)
Fixpoint bfill_row (l : list cell) : list cell :=
  match l with
  | [] => []
  | c :: l' =>
      let t := bfill_row l' in
      match c with
      | Some v => Some v :: t
      | None => mjoin (head t) :: t
      end
  end.

Definition map_rows (f : list cell -> list cell) (m : Matrix) : Matrix :=
  {| mx_index := mx_index m;
     mx_columns := mx_columns m;
     mx_values := map f (mx_values m) |}.

(** [m.ffill(axis=1)], [m.bfill(axis=1)], [m.fillna(v)] *)
Definition ffill (m : Matrix) : Matrix := map_rows ffill_row m.
Definition bfill (m : Matrix) : Matrix := map_rows bfill_row m.
Definition fillna (v : scalar) (m : Matrix) : Matrix :=
  map_rows (map (fun c : cell => Some (default v c))) m.

(** ** Series *)

(** [series.unique()]: distinct values in order of first appearance. *)
Fixpoint unique {A} (eqb : A -> A -> bool) (l : list A) : list A :=
  match l with
  | [] => []
  | x :: l' => x :: List.filter (fun y => negb (eqb x y)) (unique eqb l')
  end.

Definition cell_eqb (a b : cell) : bool :=
  match a, b with
  | Some x, Some y => scalar_eqb x y
  | None, None => true
  | _, _ => false
  end.

(** [series < q], [series > q]: elementwise, false on a missing cell, a
    [TypeError] when the series holds strings. *)
Definition compare_num (op : Q -> bool) (s : list cell) : result (list bool) :=
  if forallb is_num s
  then Ok (map (fun c : cell =>
                  match c with
                  | Some (Num x) => op x
                  | _ => false
                  end) s)
  else Raise TypeError.

(** [series == 1] on one cell. *)
Definition eq_one (c : cell) : bool :=
  match c with
  | Some v => scalar_eqb v (Num 1)
  | None => false
  end.

(** [mask.sum()] *)
Definition count_true (mask : list bool) : nat :=
  length (List.filter id mask).

(** * The script *)

(** ** The validator *)

(** A value stored in the validation report. *)
Inductive value :=
  | VBool (b : bool)
  | VShape (s : nat * nat)
  | VFloat (x : option Q).

(** The two locals [results] and [all_valid] of [validate_all]. *)
Record vstate := {
  results : gmap string value;
  all_valid : bool
}.

Definition set_result (k : string) (v : value) (st : vstate) : vstate :=
  {| results := <[k := v]> (results st); all_valid := all_valid st |}.

Definition set_invalid (st : vstate) : vstate :=
  {| results := results st; all_valid := false |}.

Definition required_cols : list string :=
  ["object_id"; "epoch_day"; "mag"; "flux"; "mag_err"; "flux_err"].

Definition critical_cols : list string :=
  ["object_id"; "epoch_day"; "mag"; "flux"].

(** Required structure (lines 28-34). *)
Definition missing_cols (detections_df : DataFrame) : list string :=
  List.filter (fun col => negb (has_column detections_df col)) required_cols.

Definition check_columns (detections_df : DataFrame) (st : vstate) : vstate :=
  let missing := missing_cols detections_df in
  let st := match missing with [] => st | _ :: _ => set_invalid st end in
  set_result "columns_ok" (VBool (length missing =? 0)%nat) st.

(** NaN check (lines 36-39). *)
Definition no_nans (detections_df : DataFrame) : result bool :=
  critical ← getitems detections_df critical_cols;
  let nan_count := count_nan critical in
  Ok (nan_count =? 0)%nat.

Definition check_nans (detections_df : DataFrame) (st : vstate) : result vstate :=
  b ← no_nans detections_df;
  Ok (set_result "no_nans" (VBool b) st).

Definition pivot_mag (detections_df : DataFrame) : result Matrix :=
  pivot_table detections_df "object_id" "epoch_day" "mag" Mean.

Definition sparsity (ts_matrix : Matrix) : option Q :=
  fdiv (inject_Z (Z.of_nat (count_nan (mx_values ts_matrix))))
       (matrix_size ts_matrix).

(** Attempt time-series pivot (lines 41-57): the [try] body, then the
    handler. *)
Definition check_pivot (detections_df : DataFrame) (st : vstate) : vstate :=
  try_except
    (ts_matrix ← pivot_mag detections_df;
     Ok (set_result "sparsity" (VFloat (sparsity ts_matrix))
          (set_result "matrix_shape" (VShape (shape ts_matrix))
            (set_result "matrix_ok" (VBool true) st))))
    (set_invalid (set_result "matrix_ok" (VBool false) st)).

(** Difference of two sets of ids, [set(a) - set(b)]. *)
Definition set_difference (a : list scalar) (b : list cell) : list scalar :=
  List.filter (fun x => negb (existsb (cell_eqb (Some x)) b)) a.

Definition flagged (r : row) : bool := eq_one (r !! "is_injection").

(** Label consistency (lines 59-68). *)
Definition labels_match (detections_df injections_df : DataFrame) : result bool :=
  _ ← getitem detections_df "is_injection";
  ids ← getitem (select flagged detections_df) "injection_id";
  let inj_from_dets := unique scalar_eqb (dropna ids) in
  tbl ← getitem injections_df "injection_id";
  let inj_from_table := unique cell_eqb tbl in
  let unmatched := set_difference inj_from_dets inj_from_table in
  Ok (length unmatched =? 0)%nat.

Definition check_labels (detections_df injections_df : DataFrame) (st : vstate)
  : result vstate :=
  b ← labels_match detections_df injections_df;
  Ok (set_result "labels_match" (VBool b) st).

(** Sanity checks (lines 70-74). *)
Definition reasonable_ranges (detections_df : DataFrame) : result bool :=
  mag ← getitem detections_df "mag";
  low ← compare_num (fun x => Qlt_bool x 10) mag;
  mag' ← getitem detections_df "mag";
  high ← compare_num (fun x => Qlt_bool 30 x) mag';
  let mag_outliers := count_true (zip_with orb low high) in
  flux ← getitem detections_df "flux";
  neg ← compare_num (fun x => Qlt_bool x 0) flux;
  let neg_flux := count_true neg in
  Ok ((mag_outliers =? 0)%nat && (neg_flux =? 0)%nat).

Definition check_ranges (detections_df : DataFrame) (st : vstate) : result vstate :=
  b ← reasonable_ranges detections_df;
  Ok (set_result "reasonable_ranges" (VBool b) st).

(** [results = {}] and [all_valid = True] (lines 25-26). *)
Definition init : vstate := {| results := ∅; all_valid := true |}.

(** [PipelineDataValidator.validate_all], on the directory it was
    configured with.  The progress messages it prints are left out. *)
Definition validate_all (data_dir : gmap string DataFrame)
  : result (bool * gmap string value) :=
  detections_df ← read_csv data_dir "detections.csv";
  injections_df ← read_csv data_dir "injections.csv";
  meta_df ← read_csv data_dir "object_meta.csv";
  let st := init in
  let st := check_columns detections_df st in
  st ← check_nans detections_df st;
  let st := check_pivot detections_df st in
  st ← check_labels detections_df injections_df st;
  st ← check_ranges detections_df st;
  Ok (all_valid st, results st).

(** ** The transformer *)

Record Metadata := {
  n_objects : nat;
  n_timestamps : nat;
  anomaly_rate : option Q;
  data_type : string;
  source : string
}.

(** What a file of the output directory holds.  A CSV file is the matrix
    it was written from: its text and its parsing are not modelled. *)
Inductive artefact :=
  | CsvFile (m : Matrix)
  | JsonFile (md : Metadata).

(** Computations that write to the output directory and may raise: the
    files written before an exception stay written. *)
Definition io (A : Type) : Type :=
  gmap string artefact -> gmap string artefact * result A.

#[global] Instance io_ret : MRet io := fun A a out => (out, Ok a).

#[global] Instance io_bind : MBind io := fun A B k m out =>
  match m out with
  | (out', Ok a) => k a out'
  | (out', Raise e) => (out', Raise e)
  end.

Definition lift {A} (r : result A) : io A := fun out => (out, r).

Definition write (name : string) (a : artefact) : io unit :=
  fun out => (<[name := a]> out, Ok ()).

(** [array.mean()] over every cell of a two-dimensional array: [NaN] when
    a cell is missing or the array is empty, a [TypeError] when a cell is
    a string. *)
Definition values_mean (vals : list (list cell)) : result (option Q) :=
  let cells := concat vals in
  if forallb is_num cells then
    if existsb isna cells then Ok None
    else Ok (fdiv (Qsum (omap to_num (dropna cells))) (length cells))
  else Raise TypeError.

Definition pivot_labels (detections_df : DataFrame) : result Matrix :=
  pivot_table detections_df "object_id" "epoch_day" "is_injection" Max.

(** The metadata summary (lines 113-120). *)
Definition metadata_of (ts : Matrix) (rate : option Q) : Metadata :=
  {| n_objects := (shape ts).1;
     n_timestamps := (shape ts).2;
     anomaly_rate := rate;
     data_type := "time_series";
     source := "uploaded_dataset" |}.

(** [create_pipeline_ready_data], on the input directory; the state is
    the output directory, which the caller has created. *)
Definition create_pipeline_ready_data (data_dir : gmap string DataFrame)
  : io (Matrix * Matrix * Metadata) :=
  detections_df ← lift (read_csv data_dir "detections.csv");
  (* Build time series matrix *)
  ts ← lift (pivot_mag detections_df);
  let ts := bfill (ffill ts) in
  write "time_series_matrix.csv" (CsvFile ts);;
  (* Build label matrix *)
  labels ← lift (pivot_labels detections_df);
  let labels := fillna (Num 0) labels in
  write "anomaly_labels.csv" (CsvFile labels);;
  (* Metadata summary *)
  rate ← lift (values_mean (mx_values labels));
  let metadata := metadata_of ts rate in
  write "data_metadata.json" (JsonFile metadata);;
  mret (ts, labels, metadata).

(** ** The entry point *)

(** A line of the standard output.  How a value is rendered as text is
    not modelled: a statistic is its key with its value. *)
Inductive line :=
  | Message (text : string)
  | Statistic (key : string) (v : value)
  | Ready (is_valid : bool).

(** The keys of the report in the order [validate_all] assigns them
    (lines 34, 39, 52-54 or 56, 68, 74); each is assigned once, so this
    is the order in which the dictionary yields them. *)
Definition report_keys : list string :=
  ["columns_ok"; "no_nans"; "matrix_ok"; "matrix_shape"; "sparsity";
   "labels_match"; "reasonable_ranges"].

(** [results.items()] *)
Definition items (results : gmap string value) : list (string * value) :=
  omap (fun key => pair key <$> results !! key) report_keys.

(** The module run as a script (lines 131-140), with the two messages
    [validate_all] prints itself: the output so far, and how the run
    ends. *)
Definition main (data_dir : gmap string DataFrame) : list line * result unit :=
  let started := [Message "Running dataset validation..."] in
  match validate_all data_dir with
  | Raise e => (started, Raise e)
  | Ok (is_valid, results) =>
      ((started ++
        [Message "Validation complete."; Message "Validation statistics:"] ++
        map (fun kv : string * value => Statistic kv.1 kv.2) (items results) ++
        [Ready is_valid; Message "Done."])%list,
       Ok ())
  end.

(** ** Vocabulary of the statements *)

Definition is_Ok {A} (r : result A) : bool :=
  match r with
  | Ok _ => true
  | Raise _ => false
  end.

(** The state in which [validate_all] ends when the three fallible checks
    returned [nn], [lm] and [rr]. *)
Definition final (dets : DataFrame) (nn lm rr : bool) : vstate :=
  set_result "reasonable_ranges" (VBool rr)
    (set_result "labels_match" (VBool lm)
       (check_pivot dets
          (set_result "no_nans" (VBool nn) (check_columns dets init)))).

Definition columns_ok (dets : DataFrame) : bool :=
  (length (missing_cols dets) =? 0)%nat.

(** The column [c] holds no string. *)
Definition numeric (df : DataFrame) (c : string) : bool :=
  forallb is_num (map (λ r : row, r !! c) (df_rows df)).

(** The inputs on which no step of [validate_all] raises: the columns it
    indexes exist, and the two columns it compares with numbers hold no
    strings. *)
Definition readable (dets inj : DataFrame) : bool :=
  forallb (has_column dets) (critical_cols ++ ["is_injection"; "injection_id"])
  && has_column inj "injection_id"
  && numeric dets "mag" && numeric dets "flux".

(** The table without the column [c]. *)
Definition drop_column (c : string) (df : DataFrame) : DataFrame :=
  {| df_columns := List.filter (λ c', negb (String.eqb c c')) (df_columns df);
     df_rows := map (delete c) (df_rows df) |}.

Definition has_injection_id (r : row) : bool := notna (r !! "injection_id").

(** The groups a pivot keeps, with their aggregates. *)
Definition pivot_groups (df : DataFrame) (index columns values : string)
    (f : aggfunc) : list (key * cell) :=
  dropna_groups (groupby_agg f (keyed_rows index columns values (df_rows df))).

Definition all_observed (agged : list (key * cell)) : Prop :=
  ∀ kv, kv ∈ agged → notna kv.2 = true.

(** The detections at a given (object, epoch). *)
Definition at_key (index columns : string) (o e : scalar) (r : row) : bool :=
  match r !! index, r !! columns with
  | Some o', Some e' => key_eqb (o, e) (o', e')
  | _, _ => false
  end.

(** The most recent observed value of a prefix of a row. *)
Fixpoint last_observed (l : list cell) : cell :=
  match l with
  | [] => None
  | c :: l' =>
      match last_observed l' with
      | Some v => Some v
      | None => c
      end
  end.

(** The first observed value of a row. *)
Fixpoint first_observed (l : list cell) : cell :=
  match l with
  | [] => None
  | Some v :: _ => Some v
  | None :: l' => first_observed l'
  end.

(** ** Example tables *)

Definition mk_row (l : list (string * scalar)) : row := list_to_map l.

(** A detection with both errors at 0.1; a missing argument leaves the
    cell empty. *)
Definition det (o e : Q) (mag flux : cell) (inj inj_id : cell) : row :=
  list_to_map
    (omap (fun kv : string * cell => pair kv.1 <$> kv.2)
       [("object_id", Some (Num o)); ("epoch_day", Some (Num e));
        ("mag", mag); ("flux", flux);
        ("mag_err", Some (Num 0.1)); ("flux_err", Some (Num 0.1));
        ("is_injection", inj); ("injection_id", inj_id)]).

Definition all_cols : list string :=
  required_cols ++ ["is_injection"; "injection_id"].

(** Object 1 observed at epochs 2 and 4 (the second an injection),
    object 2 at epochs 1, 3 and twice at 5. *)
Definition ex_rows : list row :=
  [det 1 2 (Some (Num 5)) (Some (Num 1)) (Some (Num 0)) None;
   det 1 4 (Some (Num 7)) (Some (Num 1)) (Some (Num 1)) (Some (Num 5));
   det 2 1 (Some (Num 20)) (Some (Num 1)) (Some (Num 0)) None;
   det 2 3 (Some (Num 21)) (Some (Num 1)) (Some (Num 0)) None;
   det 2 5 (Some (Num 22)) (Some (Num 1)) (Some (Num 0)) None;
   det 2 5 (Some (Num 24)) (Some (Num 1)) (Some (Num 0)) None].

Definition ex_df : DataFrame :=
  {| df_columns := all_cols; df_rows := ex_rows |}.

Definition ex_inj : DataFrame :=
  {| df_columns := ["injection_id"];
     df_rows := [mk_row [("injection_id", Num 5)]] |}.

Definition no_injections : DataFrame :=
  {| df_columns := ["injection_id"]; df_rows := [] |}.

Definition object_meta : DataFrame :=
  {| df_columns := ["object_id"]; df_rows := [mk_row [("object_id", Num 1)]] |}.

(** A data directory holding the three files. *)
Definition dir_of (dets inj : DataFrame) : gmap string DataFrame :=
  {[ "detections.csv" := dets;
     "injections.csv" := inj;
     "object_meta.csv" := object_meta ]}.

(** What the transformer returns and writes on [ex_df]. *)
Definition ex_ts : Matrix :=
  {| mx_index := [Num 1; Num 2];
     mx_columns := [Num 1; Num 2; Num 3; Num 4; Num 5];
     mx_values :=
       [[Some (Num 5); Some (Num 5); Some (Num 5); Some (Num 7); Some (Num 7)];
        [Some (Num 20); Some (Num 20); Some (Num 21); Some (Num 21);
         Some (Num 23)]] |}.

Definition ex_labels : Matrix :=
  {| mx_index := [Num 1; Num 2];
     mx_columns := [Num 1; Num 2; Num 3; Num 4; Num 5];
     mx_values :=
       [[Some (Num 0); Some (Num 0); Some (Num 0); Some (Num 1); Some (Num 0)];
        [Some (Num 0); Some (Num 0); Some (Num 0); Some (Num 0);
         Some (Num 0)]] |}.

Definition ex_metadata : Metadata :=
  {| n_objects := 2; n_timestamps := 5; anomaly_rate := Some (1 # 10);
     data_type := "time_series"; source := "uploaded_dataset" |}.

Definition ex_out : gmap string artefact :=
  {[ "time_series_matrix.csv" := CsvFile ex_ts;
     "anomaly_labels.csv" := CsvFile ex_labels;
     "data_metadata.json" := JsonFile ex_metadata ]}.

(** A single detection whose [flux] is missing. *)
Definition nan_dets : DataFrame :=
  {| df_columns := all_cols;
     df_rows := [det 1 1 (Some (Num 15)) None (Some (Num 0)) None] |}.

(** A single detection whose [mag] is a string. *)
Definition str_dets : DataFrame :=
  {| df_columns := all_cols;
     df_rows := [mk_row [("object_id", Num 1); ("epoch_day", Num 1);
                         ("mag", Str "faint"); ("flux", Num 1)]] |}.

Definition one_detection (mag : Q) : list row :=
  [det 1 1 (Some (Num mag)) (Some (Num 1)) (Some (Num 1)) (Some (Num 5))].

(** A table whose only detection is flagged as injection 5, with a [mag]
    inside or outside the accepted range, and with or without the
    [mag_err] column. *)
Definition probe_dets (complete in_range : bool) : DataFrame :=
  let df := {| df_columns := all_cols;
               df_rows := one_detection (if in_range then 15 else 35) |} in
  if complete then df else drop_column "mag_err" df.

Definition probe_inj (listed : bool) : DataFrame :=
  if listed then ex_inj else no_injections.

(** A table whose only detection is flagged and carries no injection id. *)
Definition orphan_dets : DataFrame :=
  {| df_columns := all_cols;
     df_rows := [det 1 1 (Some (Num 15)) (Some (Num 1)) (Some (Num 1)) None] |}.




(** ** Vocabulary of the further properties *)

(** The files [validate_all] reads, in the order it reads them. *)
Definition input_files : list string :=
  ["detections.csv"; "injections.csv"; "object_meta.csv"].

Definition absent (data_dir : gmap string DataFrame) (name : string) : bool :=
  match data_dir !! name with
  | Some _ => false
  | None => true
  end.

(** An output directory before the first write, and one holding the
    time-series matrix of the example table only. *)
Definition empty_out : gmap string artefact := ∅.

Definition ts_only_out : gmap string artefact :=
  {[ "time_series_matrix.csv" := CsvFile ex_ts ]}.

(** A data directory without [object_meta.csv]. *)
Definition no_meta_dir : gmap string DataFrame :=
  {[ "detections.csv" := ex_df; "injections.csv" := ex_inj ]}.

(** [a] comes strictly before [b] in a sorted index. *)
Definition scalar_lt (a b : scalar) : Prop :=
  scalar_leb a b = true ∧ scalar_eqb a b = false.

(** * Properties *)

(** Closes an equation between closed terms by evaluating its left side. *)
Ltac vm_refl :=
  lazymatch goal with
  | |- _ = ?b => vm_cast_no_check (@eq_refl _ b)
  end.

(** ** Equality of scalars and keys is an equivalence *)

Lemma scalar_eqb_refl a : scalar_eqb a a = true.
Proof.
  destruct a as [q|s]; simpl.
  - apply Qeq_bool_iff. reflexivity.
  - apply String.eqb_refl.
Qed.

Lemma scalar_eqb_sym a b : scalar_eqb a b = scalar_eqb b a.
Proof.
  destruct a as [x|s], b as [y|t]; simpl; try reflexivity.
  - apply eq_true_iff_eq. rewrite !Qeq_bool_iff. split; intros H; by symmetry.
  - apply String.eqb_sym.
Qed.

Lemma scalar_eqb_trans a b c :
  scalar_eqb a b = true → scalar_eqb b c = true → scalar_eqb a c = true.
Proof.
  destruct a as [x|s], b as [y|t], c as [z|u]; simpl; try discriminate.
  - rewrite !Qeq_bool_iff. intros H1 H2. by rewrite H1.
  - rewrite !String.eqb_eq. congruence.
Qed.

Lemma key_eqb_refl k : key_eqb k k = true.
Proof. unfold key_eqb. by rewrite !scalar_eqb_refl. Qed.

Lemma key_eqb_sym a b : key_eqb a b = key_eqb b a.
Proof. unfold key_eqb. by rewrite (scalar_eqb_sym a.1), (scalar_eqb_sym a.2). Qed.

Lemma key_eqb_trans a b c :
  key_eqb a b = true → key_eqb b c = true → key_eqb a c = true.
Proof.
  unfold key_eqb. rewrite !andb_true_iff. intros [H1 H2] [H3 H4].
  split; eapply scalar_eqb_trans; eauto.
Qed.

(** Equal keys select the same rows. *)
Lemma key_eqb_congr a b c :
  key_eqb a b = true → key_eqb a c = key_eqb b c.
Proof.
  intros Hab. apply eq_true_iff_eq. split; intros H.
  - eapply key_eqb_trans; [|exact H]. by rewrite key_eqb_sym.
  - eapply key_eqb_trans; eauto.
Qed.

(** ** Sorted indexes keep exactly the values they were given *)

Section SortUniqueFacts.
Context {A : Type} (eqb leb : A -> A -> bool).
Hypothesis eqb_refl : ∀ a, eqb a a = true.
Hypothesis eqb_sym : ∀ a b, eqb a b = eqb b a.

Lemma insert_unique_incl x l y :
  y ∈ insert_unique eqb leb x l → y = x ∨ y ∈ l.
Proof.
  induction l as [|z l IH]; simpl.
  - rewrite list_elem_of_singleton. auto.
  - destruct (eqb x z); [auto|].
    destruct (leb x z).
    + rewrite elem_of_cons. tauto.
    + rewrite !elem_of_cons. intros [->|H]; [auto|].
      destruct (IH H); auto.
Qed.

Lemma insert_unique_keeps x l y :
  y ∈ l → y ∈ insert_unique eqb leb x l.
Proof.
  induction l as [|z l IH]; simpl; [by rewrite elem_of_nil|].
  destruct (eqb x z); [done|].
  destruct (leb x z); rewrite !elem_of_cons; [tauto|].
  intros [->|H]; auto.
Qed.

Lemma insert_unique_has x l :
  ∃ y, y ∈ insert_unique eqb leb x l ∧ eqb y x = true.
Proof.
  induction l as [|z l IH]; simpl.
  - exists x. split; [apply list_elem_of_singleton; done | apply eqb_refl].
  - destruct (eqb x z) eqn:E.
    + exists z. split; [left | by rewrite eqb_sym].
    + destruct (leb x z).
      * exists x. split; [left | apply eqb_refl].
      * destruct IH as (y & Hy & Hxy). exists y. split; [by right | done].
Qed.

Lemma sort_unique_incl l y : y ∈ sort_unique eqb leb l → y ∈ l.
Proof.
  induction l as [|x l IH]; simpl; [done|].
  intros H. apply insert_unique_incl in H as [->|H]; [left | right; auto].
Qed.

Lemma sort_unique_has l x :
  x ∈ l → ∃ y, y ∈ sort_unique eqb leb l ∧ eqb y x = true.
Proof.
  induction l as [|z l IH]; simpl; [by rewrite elem_of_nil|].
  rewrite elem_of_cons. intros [->|H].
  - apply insert_unique_has.
  - destruct (IH H) as (y & Hy & Hxy).
    exists y. split; [by apply insert_unique_keeps | done].
Qed.
End SortUniqueFacts.

(** ** Shape of a pivoted table *)

Lemma dropna_groups_observed agged : all_observed (dropna_groups agged).
Proof.
  intros kv H. apply list_elem_of_In, filter_In in H. tauto.
Qed.

Lemma lookup_key_observed agged k kv :
  all_observed agged → kv ∈ agged → key_eqb k kv.1 = true →
  notna (lookup_key k agged) = true.
Proof.
  intros Hobs Hin Hk. unfold lookup_key.
  destruct (List.find _ agged) as [kv'|] eqn:F.
  - apply find_some in F as [F _]. apply Hobs. by apply list_elem_of_In.
  - apply list_elem_of_In in Hin.
    pose proof (find_none _ _ F _ Hin) as N. simpl in N. congruence.
Qed.

Lemma compress_all_true {A} (mask : list bool) (l : list A) :
  Forall (λ b, b = true) mask → length mask = length l → compress mask l = l.
Proof.
  unfold compress. intros H. revert l.
  induction H as [|b mask -> _ IH]; intros [|x l]; simpl; try done.
  intros [= Hlen]. f_equal. by apply IH.
Qed.

Lemma unstack_index_length agged :
  length (mx_values (unstack agged)) = length (mx_index (unstack agged)).
Proof. simpl. by rewrite length_map. Qed.

Lemma unstack_row_length agged r :
  r ∈ mx_values (unstack agged) → length r = length (mx_columns (unstack agged)).
Proof.
  simpl. intros H. apply list_elem_of_fmap in H as (o & -> & _).
  by rewrite length_map.
Qed.

Lemma unstack_cell agged i j o e :
  mx_index (unstack agged) !! i = Some o →
  mx_columns (unstack agged) !! j = Some e →
  mx_values (unstack agged) !! i ≫= (.!! j) = Some (lookup_key (o, e) agged).
Proof.
  simpl. intros Hi Hj.
  rewrite list_lookup_fmap, Hi. simpl.
  by rewrite list_lookup_fmap, Hj.
Qed.

(** Every row of the unstacked table holds an observed cell. *)
Lemma unstack_row_observed agged r :
  all_observed agged → r ∈ mx_values (unstack agged) → existsb notna r = true.
Proof.
  intros Hobs H. simpl in H.
  apply list_elem_of_fmap in H as (o & -> & Ho).
  apply sort_unique_incl, list_elem_of_fmap in Ho as (kv & -> & Hkv).
  destruct (sort_unique_has scalar_eqb scalar_leb scalar_eqb_refl scalar_eqb_sym
              (map (λ kv, kv.1.2) agged) kv.1.2) as (e & He & Hee).
  { apply list_elem_of_fmap. eauto. }
  apply existsb_exists. exists (lookup_key (kv.1.1, e) agged). split.
  - apply list_elem_of_In, list_elem_of_fmap. eauto.
  - apply lookup_key_observed with kv; [done..|].
    unfold key_eqb. simpl. by rewrite scalar_eqb_refl, Hee.
Qed.

(** Every column of the unstacked table holds an observed cell. *)
Lemma unstack_column_observed agged j :
  all_observed agged → j < length (mx_columns (unstack agged)) →
  column_observed (mx_values (unstack agged)) j = true.
Proof.
  intros Hobs Hj. apply lookup_lt_is_Some_2 in Hj as [e He].
  assert (e ∈ mx_columns (unstack agged)) as Hin
    by (apply list_elem_of_lookup; eauto).
  simpl in Hin.
  apply sort_unique_incl, list_elem_of_fmap in Hin as (kv & -> & Hkv).
  destruct (sort_unique_has scalar_eqb scalar_leb scalar_eqb_refl scalar_eqb_sym
              (map (λ kv, kv.1.1) agged) kv.1.1) as (o & Ho & Hoo).
  { apply list_elem_of_fmap. eauto. }
  apply list_elem_of_lookup in Ho as [i Hi].
  pose proof (unstack_cell agged i j o _ Hi He) as Hc.
  destruct (mx_values (unstack agged) !! i) as [r|] eqn:Hr; [|done].
  simpl in Hc. unfold column_observed. apply existsb_exists.
  exists r. split.
  - apply list_elem_of_In, list_elem_of_lookup. eauto.
  - rewrite Hc. simpl. apply lookup_key_observed with kv; [done..|].
    unfold key_eqb. simpl. by rewrite Hoo, scalar_eqb_refl.
Qed.

(** After the all-missing groups are dropped no column is empty, so the
    final column filter of [pivot_table] keeps the table as it is. *)
Lemma dropna_columns_unstack agged :
  all_observed agged → dropna_columns (unstack agged) = unstack agged.
Proof.
  intros Hobs. unfold dropna_columns.
  set (m := unstack agged).
  set (mask := map (column_observed (mx_values m)) (seq 0 (length (mx_columns m)))).
  assert (Forall (λ b, b = true) mask) as Hmask.
  { apply Forall_forall. intros b Hb.
    apply list_elem_of_fmap in Hb as (j & -> & Hj).
    apply list_elem_of_In, in_seq in Hj.
    apply unstack_column_observed; [done | fold m; lia]. }
  assert (length mask = length (mx_columns m)) as Hlen
    by (unfold mask; by rewrite length_map, length_seq).
  rewrite (compress_all_true mask (mx_columns m)) by done.
  replace (map (compress mask) (mx_values m)) with (mx_values m); [by destruct m|].
  symmetry. rewrite <- (map_id (mx_values m)) at 2.
  apply map_ext_in. intros r Hr.
  apply compress_all_true; [done|].
  rewrite Hlen. symmetry. apply unstack_row_length. by apply list_elem_of_In.
Qed.

Lemma pivot_table_Ok df index columns values f m :
  pivot_table df index columns values f = Ok m →
  m = unstack (pivot_groups df index columns values f).
Proof.
  unfold pivot_table. intros H.
  destruct (getitem df values) as [vs|]; [|done]. simpl in H.
  destruct (getitem df index); [|done]. simpl in H.
  destruct (getitem df columns); [|done]. simpl in H.
  assert (Ok (dropna_columns (unstack (pivot_groups df index columns values f)))
          = Ok m) as [= <-].
  { destruct f; [destruct (forallb is_num vs)|]; done. }
  apply dropna_columns_unstack, dropna_groups_observed.
Qed.

(** ** Forward and backward fill *)

Lemma length_ffill_from last l : length (ffill_from last l) = length l.
Proof.
  revert last. induction l as [|[v|] l IH]; intros last; simpl; by rewrite ?IH.
Qed.

Lemma length_bfill_row l : length (bfill_row l) = length l.
Proof. induction l as [|[v|] l IH]; simpl; by rewrite ?IH. Qed.

Lemma ffill_from_observed v l : Forall (λ c, notna c = true) (ffill_from (Some v) l).
Proof.
  revert v. induction l as [|[w|] l IH]; intros v; simpl; constructor; auto.
Qed.

Lemma bfill_row_id l : Forall (λ c, notna c = true) l → bfill_row l = l.
Proof.
  induction 1 as [|[v|] l Hc _ IH]; simpl; [done| |done].
  by rewrite IH.
Qed.

Lemma ffill_from_lookup v l i :
  i < length l →
  ffill_from (Some v) l !! i =
    Some (match last_observed (take (S i) l) with
          | Some w => Some w
          | None => Some v
          end).
Proof.
  revert v i. induction l as [|[w|] l IH]; intros v i Hi; simpl in *; [lia|..].
  - destruct i as [|i]; simpl; [done|].
    rewrite IH by lia. by destruct (last_observed _).
  - destruct i as [|i]; simpl; [done|].
    rewrite IH by lia. by destruct (last_observed _).
Qed.

(** The fill rule, cell by cell: the most recent observed value at or
    before the position, and for the leading cells that have none, the
    first observed value of the row. *)
Lemma fill_rule l i :
  i < length l →
  bfill_row (ffill_row l) !! i =
    Some (match last_observed (take (S i) l) with
          | Some v => Some v
          | None => first_observed l
          end).
Proof.
  unfold ffill_row. revert i.
  induction l as [|[v|] l IH]; intros i Hi; simpl in *; [lia|..].
  - rewrite bfill_row_id by apply ffill_from_observed.
    destruct i as [|i]; simpl; [done|].
    rewrite ffill_from_lookup by lia. by destruct (last_observed _).
  - destruct i as [|i]; simpl.
    + f_equal.
      destruct l as [|c l]; [done|].
      rewrite head_lookup, (IH 0%nat) by (simpl; lia). simpl.
      by destruct c.
    + rewrite IH by lia. by destruct (last_observed _).
Qed.

(** A row with an observed cell has none missing once filled. *)
Lemma fill_no_missing l :
  existsb notna l = true →
  Forall (λ c, notna c = true) (bfill_row (ffill_row l)).
Proof.
  unfold ffill_row.
  induction l as [|[v|] l IH]; simpl; [done|..]; intros H.
  - rewrite bfill_row_id by apply ffill_from_observed.
    constructor; [done | apply ffill_from_observed].
  - specialize (IH H). constructor; [|done].
    destruct (bfill_row (ffill_from None l)) as [|c t] eqn:E.
    + apply (f_equal length) in E.
      rewrite length_bfill_row, length_ffill_from in E.
      destruct l; [done | simpl in E; lia].
    + simpl. by apply Forall_cons in IH as [? _].
Qed.

(** ** The steps of the validator *)

Lemma getitem_present df c :
  c ∈ df_columns df → getitem df c = Ok (map (λ r : row, r !! c) (df_rows df)).
Proof. intros H. unfold getitem, has_column. by rewrite bool_decide_eq_true_2. Qed.

Lemma getitem_absent df c : c ∉ df_columns df → getitem df c = Raise (KeyError c).
Proof. intros H. unfold getitem, has_column. by rewrite bool_decide_eq_false_2. Qed.

Lemma getitem_Ok df c col :
  getitem df c = Ok col → c ∈ df_columns df ∧ col = map (λ r : row, r !! c) (df_rows df).
Proof.
  unfold getitem, has_column. case_bool_decide; [|done]. by intros [= <-].
Qed.

Lemma missing_cols_nil df :
  missing_cols df = [] ↔ ∀ c, c ∈ required_cols → c ∈ df_columns df.
Proof.
  unfold missing_cols. split.
  - intros H c Hc. destruct (decide (c ∈ df_columns df)) as [|N]; [done|].
    assert (c ∈ List.filter (λ col, negb (has_column df col)) required_cols) as Hin.
    { apply list_elem_of_In, filter_In. split; [by apply list_elem_of_In|].
      unfold has_column. by rewrite bool_decide_eq_false_2. }
    rewrite H in Hin. by apply elem_of_nil in Hin.
  - intros H.
    destruct (List.filter _ required_cols) as [|c l] eqn:E; [done|].
    assert (In c (c :: l)) as Hin by (by left).
    rewrite <- E in Hin. apply filter_In in Hin as [Hc Hn].
    apply list_elem_of_In, H in Hc. unfold has_column in Hn.
    by rewrite bool_decide_eq_true_2 in Hn.
Qed.

Lemma validate_all_Ok dir ok rep :
  validate_all dir = Ok (ok, rep) ↔
  ∃ dets inj meta nn lm rr,
    dir !! "detections.csv" = Some dets ∧
    dir !! "injections.csv" = Some inj ∧
    dir !! "object_meta.csv" = Some meta ∧
    no_nans dets = Ok nn ∧
    labels_match dets inj = Ok lm ∧
    reasonable_ranges dets = Ok rr ∧
    ok = all_valid (final dets nn lm rr) ∧
    rep = results (final dets nn lm rr).
Proof.
  unfold validate_all, read_csv, check_nans, check_labels, check_ranges. split.
  - destruct (dir !! "detections.csv") as [dets|]; [|done].
    destruct (dir !! "injections.csv") as [inj|]; [|done].
    destruct (dir !! "object_meta.csv") as [meta|]; [|done]. simpl.
    destruct (no_nans dets) as [nn|] eqn:Hn; [|done]. simpl.
    destruct (labels_match dets inj) as [lm|] eqn:Hl; [|done]. simpl.
    destruct (reasonable_ranges dets) as [rr|] eqn:Hr; [|done]. simpl.
    intros [= <- <-]. by exists dets, inj, meta, nn, lm, rr.
  - intros (dets & inj & meta & nn & lm & rr & -> & -> & -> & Hn & Hl & Hr & -> & ->).
    simpl. rewrite Hn. simpl. rewrite Hl. simpl. by rewrite Hr.
Qed.

Lemma set_result_valid k v st : all_valid (set_result k v st) = all_valid st.
Proof. done. Qed.

Lemma set_result_lookup k v st k' :
  results (set_result k v st) !! k' =
    if decide (k = k') then Some v else results st !! k'.
Proof. unfold set_result. simpl. apply lookup_insert. Qed.

Lemma check_columns_valid dets st :
  all_valid (check_columns dets st) = all_valid st && columns_ok dets.
Proof.
  unfold check_columns, columns_ok.
  destruct (missing_cols dets); simpl; by rewrite ?andb_true_r, ?andb_false_r.
Qed.

Lemma check_pivot_valid dets st :
  all_valid (check_pivot dets st) = all_valid st && is_Ok (pivot_mag dets).
Proof.
  unfold check_pivot.
  destruct (pivot_mag dets); simpl; by rewrite ?andb_true_r, ?andb_false_r.
Qed.

Lemma check_pivot_other dets st k :
  k ≠ "matrix_ok" → k ≠ "matrix_shape" → k ≠ "sparsity" →
  results (check_pivot dets st) !! k = results st !! k.
Proof.
  intros H1 H2 H3. unfold check_pivot.
  destruct (pivot_mag dets); simpl; by rewrite !lookup_insert_ne.
Qed.

Lemma check_pivot_matrix_ok dets st :
  results (check_pivot dets st) !! "matrix_ok" = Some (VBool (is_Ok (pivot_mag dets))).
Proof.
  unfold check_pivot.
  destruct (pivot_mag dets); simpl; by simplify_map_eq.
Qed.

(** The overall flag is set by the column check and the pivot only. *)
Lemma final_valid dets nn lm rr :
  all_valid (final dets nn lm rr) = columns_ok dets && is_Ok (pivot_mag dets).
Proof.
  unfold final.
  by rewrite !set_result_valid, check_pivot_valid, set_result_valid,
    check_columns_valid.
Qed.

Lemma final_columns_ok dets nn lm rr :
  results (final dets nn lm rr) !! "columns_ok" = Some (VBool (columns_ok dets)).
Proof.
  unfold final. rewrite !set_result_lookup. simpl.
  rewrite check_pivot_other by done.
  unfold check_columns. by rewrite !set_result_lookup.
Qed.

Lemma final_no_nans dets nn lm rr :
  results (final dets nn lm rr) !! "no_nans" = Some (VBool nn).
Proof.
  unfold final. rewrite !set_result_lookup. simpl.
  rewrite check_pivot_other by done. by rewrite set_result_lookup.
Qed.

Lemma final_matrix_ok dets nn lm rr :
  results (final dets nn lm rr) !! "matrix_ok" = Some (VBool (is_Ok (pivot_mag dets))).
Proof.
  unfold final. rewrite !set_result_lookup. simpl.
  apply check_pivot_matrix_ok.
Qed.

Lemma final_labels_match dets nn lm rr :
  results (final dets nn lm rr) !! "labels_match" = Some (VBool lm).
Proof.
  unfold final. by rewrite !set_result_lookup.
Qed.

Lemma final_reasonable_ranges dets nn lm rr :
  results (final dets nn lm rr) !! "reasonable_ranges" = Some (VBool rr).
Proof. unfold final. by rewrite set_result_lookup. Qed.

(** ** When the validator returns *)

Lemma has_column_true df c : has_column df c = true ↔ c ∈ df_columns df.
Proof. unfold has_column. apply bool_decide_eq_true. Qed.

Lemma absent_labels_spec df cs c :
  c ∈ absent_labels df cs ↔ c ∈ cs ∧ c ∉ df_columns df.
Proof.
  unfold absent_labels.
  rewrite list_elem_of_In, filter_In, <- list_elem_of_In, negb_true_iff.
  unfold has_column. by rewrite bool_decide_eq_false.
Qed.

Lemma absent_labels_nil df cs :
  absent_labels df cs = [] ↔ Forall (λ c, c ∈ df_columns df) cs.
Proof.
  rewrite Forall_forall. split.
  - intros H c Hc. destruct (decide (c ∈ df_columns df)) as [|Hn]; [done|].
    assert (c ∈ absent_labels df cs) as Hin by (by apply absent_labels_spec).
    rewrite H in Hin. by apply elem_of_nil in Hin.
  - intros H. destruct (absent_labels df cs) as [|c l] eqn:E; [done|].
    assert (c ∈ absent_labels df cs) as Hin by (rewrite E; left).
    apply absent_labels_spec in Hin as [Hc Hn]. by destruct (Hn (H c Hc)).
Qed.

Lemma getitems_Ok df cs cols :
  getitems df cs = Ok cols ↔
  Forall (λ c, c ∈ df_columns df) cs ∧
  cols = map (λ c, map (λ r : row, r !! c) (df_rows df)) cs.
Proof.
  unfold getitems. rewrite <- (absent_labels_nil df cs). split.
  - destruct (absent_labels df cs); [|done]. by intros [= <-].
  - by intros [-> ->].
Qed.

Lemma compare_num_Ok op s mask :
  compare_num op s = Ok mask → forallb is_num s = true.
Proof. unfold compare_num. by destruct (forallb is_num s). Qed.

Lemma pivot_table_returns df index columns values f :
  values ∈ df_columns df → index ∈ df_columns df → columns ∈ df_columns df →
  (f = Mean → numeric df values = true) →
  pivot_table df index columns values f
  = Ok (unstack (pivot_groups df index columns values f)).
Proof.
  intros Hv Hi Hc Hn. unfold pivot_table.
  rewrite !getitem_present by done. simpl.
  rewrite dropna_columns_unstack by apply dropna_groups_observed.
  destruct f; [|done]. unfold numeric in Hn. by rewrite Hn.
Qed.

(** Inversion of [m ≫= k = Ok b]: the first computation returned. *)
Ltac bind_inv H E :=
  match type of H with
  | (?m ≫= _) = Ok _ => destruct m eqn:E; [simpl in H | discriminate H]
  end.

Ltac in_columns H :=
  apply H, list_elem_of_In; simpl; tauto.

Lemma readable_spec dets inj :
  readable dets inj = true ↔
  (∃ nn, no_nans dets = Ok nn) ∧
  (∃ lm, labels_match dets inj = Ok lm) ∧
  (∃ rr, reasonable_ranges dets = Ok rr).
Proof.
  unfold readable. rewrite !andb_true_iff, forallb_forall. split.
  - intros [[[Hc Hi] Hm] Hf].
    assert (∀ c, c ∈ (critical_cols ++ ["is_injection"; "injection_id"])%list →
                 c ∈ df_columns dets) as Hcol.
    { intros c H. by apply has_column_true, Hc, list_elem_of_In. }
    apply has_column_true in Hi.
    assert ("is_injection" ∈ df_columns dets) as H1 by in_columns Hcol.
    assert ("injection_id" ∈ df_columns dets) as H2 by in_columns Hcol.
    assert ("mag" ∈ df_columns dets) as H3 by in_columns Hcol.
    assert ("flux" ∈ df_columns dets) as H4 by in_columns Hcol.
    split; [|split].
    + unfold no_nans. eexists.
      erewrite (proj2 (getitems_Ok dets critical_cols _)); [done|].
      split; [|done]. apply Forall_forall. intros c H.
      apply Hcol, elem_of_app. by left.
    + unfold labels_match. eexists.
      by rewrite !getitem_present.
    + unfold reasonable_ranges, compare_num. eexists.
      rewrite !getitem_present by done. simpl.
      unfold numeric in Hm, Hf. rewrite Hm. simpl. by rewrite Hf.
  - intros ([nn Hn] & [lm Hl] & [rr Hr]).
    unfold no_nans in Hn. bind_inv Hn E. apply getitems_Ok in E as [Hc _].
    unfold labels_match in Hl.
    bind_inv Hl E1. apply getitem_Ok in E1 as [H1 _].
    bind_inv Hl E2. apply getitem_Ok in E2 as [H2 _]. simpl in H2.
    bind_inv Hl E3. apply getitem_Ok in E3 as [H3 _].
    unfold reasonable_ranges in Hr.
    bind_inv Hr E4. apply getitem_Ok in E4 as [_ ->].
    bind_inv Hr E5. apply compare_num_Ok in E5.
    bind_inv Hr E6.
    bind_inv Hr E7. apply getitem_Ok in E7 as [_ ->].
    bind_inv Hr E8. apply compare_num_Ok in E8.
    repeat split; try done; [|by apply has_column_true].
    intros c H. apply has_column_true. apply list_elem_of_In in H.
    apply elem_of_app in H as [H|H].
    + by apply (proj1 (Forall_forall _ _) Hc).
    + apply list_elem_of_In in H. simpl in H. by destruct H as [<-|[<-|[]]].
Qed.

Lemma readable_pivot dets inj :
  readable dets inj = true → is_Ok (pivot_mag dets) = true.
Proof.
  unfold readable. rewrite !andb_true_iff, forallb_forall.
  intros [[[Hc _] Hm] _]. unfold pivot_mag.
  rewrite pivot_table_returns; try done;
    apply has_column_true, Hc; simpl; tauto.
Qed.

(** [validate_all] returns exactly on the readable inputs, and then with
    the column check as its overall flag. *)
Lemma validate_all_returns dir :
  (∃ ok rep, validate_all dir = Ok (ok, rep)) ↔
  ∃ dets inj meta,
    dir !! "detections.csv" = Some dets ∧
    dir !! "injections.csv" = Some inj ∧
    dir !! "object_meta.csv" = Some meta ∧
    readable dets inj = true.
Proof.
  split.
  - intros (ok & rep & H).
    apply validate_all_Ok in H
      as (dets & inj & meta & nn & lm & rr & Hd & Hi & Hm & Hn & Hl & Hr & _).
    exists dets, inj, meta. split_and!; try done.
    apply readable_spec. split_and!; eauto.
  - intros (dets & inj & meta & Hd & Hi & Hm & H).
    apply readable_spec in H as ([nn Hn] & [lm Hl] & [rr Hr]).
    eexists _, _. apply validate_all_Ok.
    by exists dets, inj, meta, nn, lm, rr.
Qed.

(** ** Completeness check *)

Lemma count_nan_zero vals :
  (count_nan vals =? 0)%nat = true ↔ ∀ col c, col ∈ vals → c ∈ col → c ≠ None.
Proof.
  unfold count_nan. rewrite Nat.eqb_eq, length_zero_iff_nil. split.
  - intros H col c Hcol Hc ->.
    assert (In None (List.filter isna (concat vals))) as Hin.
    { apply filter_In. split; [|done].
      apply in_concat. exists col. by rewrite <- !list_elem_of_In. }
    by rewrite H in Hin.
  - intros H. destruct (List.filter isna (concat vals)) as [|c l] eqn:E; [done|].
    assert (In c (c :: l)) as Hin by (by left).
    rewrite <- E in Hin. apply filter_In in Hin as [Hin Hc].
    apply in_concat in Hin as (col & Hcol & Hc').
    rewrite <- !list_elem_of_In in *.
    destruct c; [done|]. by destruct (H col None).
Qed.

(** [no_nans] is true exactly when no row misses a critical value. *)
Lemma no_nans_spec dets nn :
  no_nans dets = Ok nn →
  (nn = true ↔ ∀ r c, r ∈ df_rows dets → c ∈ critical_cols → r !! c ≠ None).
Proof.
  unfold no_nans. intros H. bind_inv H E. injection H as <-.
  apply getitems_Ok in E as [_ ->]. rewrite count_nan_zero. split.
  - intros H r c Hr Hc. apply (H (map (λ r : row, r !! c) (df_rows dets))).
    + apply list_elem_of_fmap. eauto.
    + apply list_elem_of_fmap. eauto.
  - intros H col c Hcol Hc.
    apply list_elem_of_fmap in Hcol as (k & -> & Hk).
    apply list_elem_of_fmap in Hc as (r & -> & Hr). eauto.
Qed.

(** C1, as stated, fails: a detection with a missing [flux] is recorded as
    [no_nans = false], yet the overall flag stays true. *)
Lemma C1_counterexample :
  (∃ r c, r ∈ df_rows nan_dets ∧ c ∈ critical_cols ∧ r !! c = None) ∧
  ∃ rep, validate_all (dir_of nan_dets no_injections) = Ok (true, rep) ∧
         rep !! "no_nans" = Some (VBool false).
Proof.
  split.
  - exists (det 1 1 (Some (Num 15)) None (Some (Num 0)) None), "flux".
    split_and!; [by left | | done].
    apply list_elem_of_In. simpl. tauto.
  - exists (results (final nan_dets false true true)).
    split; vm_refl.
Qed.

(** C1 (amended): on every input the validator can read, a missing value
    among [object_id], [epoch_day], [mag], [flux] gives [no_nans = false]
    in the returned report; the completeness check is recorded only, and
    the overall flag is true exactly when the six required columns are
    all present. *)
Theorem C1_missing_value_recorded dir dets inj meta :
  dir !! "detections.csv" = Some dets →
  dir !! "injections.csv" = Some inj →
  dir !! "object_meta.csv" = Some meta →
  readable dets inj = true →
  (∃ r c, r ∈ df_rows dets ∧ c ∈ critical_cols ∧ r !! c = None) →
  ∃ ok rep,
    validate_all dir = Ok (ok, rep) ∧
    rep !! "no_nans" = Some (VBool false) ∧
    (ok = true ↔ ∀ c, c ∈ required_cols → c ∈ df_columns dets).
Proof.
  intros Hd Hi Hm Hread (r & c & Hr & Hc & Hnan).
  pose proof (readable_pivot _ _ Hread) as Hp.
  apply readable_spec in Hread as ([nn Hn] & [lm Hl] & [rr Hrr]).
  exists (all_valid (final dets nn lm rr)), (results (final dets nn lm rr)).
  split_and!.
  - apply validate_all_Ok. by exists dets, inj, meta, nn, lm, rr.
  - rewrite final_no_nans. do 2 f_equal.
    destruct nn; [|done].
    destruct (proj1 (no_nans_spec _ _ Hn) eq_refl r c Hr Hc Hnan).
  - rewrite final_valid, Hp, andb_true_r, <- missing_cols_nil.
    unfold columns_ok. by rewrite Nat.eqb_eq, length_zero_iff_nil.
Qed.

(** The same, at the table whose only detection has no [flux]. *)
Lemma C1_missing_value_recorded_witness :
  ∃ ok rep,
    validate_all (dir_of nan_dets no_injections) = Ok (ok, rep) ∧
    rep !! "no_nans" = Some (VBool false) ∧
    (ok = true ↔ ∀ c, c ∈ required_cols → c ∈ df_columns nan_dets).
Proof.
  apply (C1_missing_value_recorded _ nan_dets no_injections object_meta);
    try reflexivity.
  exists (det 1 1 (Some (Num 15)) None (Some (Num 0)) None), "flux".
  split_and!; [by left | | done].
  apply list_elem_of_In. simpl. tauto.
Defined.

(** ** Missing columns *)

Lemma getitems_Raise df cs c :
  c ∈ cs → c ∉ df_columns df →
  getitems df cs = Raise (KeyErrorLabels (absent_labels df cs)).
Proof.
  intros Hc Hn. unfold getitems.
  destruct (absent_labels df cs) as [|k l] eqn:E; [|done].
  assert (c ∈ absent_labels df cs) as Hin by (by apply absent_labels_spec).
  rewrite E in Hin. by apply elem_of_nil in Hin.
Qed.

(** A table lacking one of the four critical columns never gets past the
    NaN check: indexing the sub-table raises. *)
Lemma validate_all_missing_critical dir dets inj meta c :
  dir !! "detections.csv" = Some dets →
  dir !! "injections.csv" = Some inj →
  dir !! "object_meta.csv" = Some meta →
  c ∈ critical_cols → c ∉ df_columns dets →
  validate_all dir = Raise (KeyErrorLabels (absent_labels dets critical_cols)).
Proof.
  intros Hd Hi Hm Hc Hn.
  unfold validate_all, read_csv. rewrite Hd, Hi, Hm. simpl.
  unfold check_nans, no_nans.
  by rewrite (getitems_Raise dets critical_cols c Hc Hn).
Qed.

(** C2 at its failing inputs: with any one of [object_id], [epoch_day],
    [mag], [flux] removed from an otherwise valid table, [validate_all]
    raises [KeyError] at the NaN check and returns no report; only with
    [mag_err] or [flux_err] removed does it return [columns_ok = false]
    and an overall flag of false. *)
Theorem C2_removed_column :
  (∃ rep, validate_all (dir_of ex_df ex_inj) = Ok (true, rep) ∧
          rep !! "columns_ok" = Some (VBool true)) ∧
  Forall (λ c, validate_all (dir_of (drop_column c ex_df) ex_inj)
               = Raise (KeyErrorLabels [c]))
         critical_cols ∧
  Forall (λ c, ∃ rep,
            validate_all (dir_of (drop_column c ex_df) ex_inj) = Ok (false, rep) ∧
            rep !! "columns_ok" = Some (VBool false))
         ["mag_err"; "flux_err"].
Proof.
  split_and!.
  - exists (results (final ex_df true true false)). split; vm_refl.
  - repeat constructor; vm_refl.
  - repeat constructor.
    + exists (results (final (drop_column "mag_err" ex_df) true true false)).
      split; vm_refl.
    + exists (results (final (drop_column "flux_err" ex_df) true true false)).
      split; vm_refl.
Qed.

(** C9: a detections table with the required columns but without the
    optional [is_injection] column makes [validate_all] raise [KeyError]
    at the label-consistency step, after the earlier checks went
    through. *)
Theorem C9_missing_is_injection_raises dir dets inj meta :
  dir !! "detections.csv" = Some dets →
  dir !! "injections.csv" = Some inj →
  dir !! "object_meta.csv" = Some meta →
  (∀ c, c ∈ required_cols → c ∈ df_columns dets) →
  "is_injection" ∉ df_columns dets →
  (∃ nn, no_nans dets = Ok nn) ∧
  validate_all dir = Raise (KeyError "is_injection").
Proof.
  intros Hd Hi Hm Hreq Hn.
  assert (getitems dets critical_cols
          = Ok (map (λ c, map (λ r : row, r !! c) (df_rows dets)) critical_cols))
    as E.
  { apply getitems_Ok. split; [|done].
    apply Forall_forall. intros c Hc. apply Hreq.
    apply list_elem_of_In in Hc. apply list_elem_of_In. simpl in *. tauto. }
  split.
  - unfold no_nans. rewrite E. by eexists.
  - unfold validate_all, read_csv. rewrite Hd, Hi, Hm. simpl.
    unfold check_nans, no_nans. rewrite E. simpl.
    unfold check_labels, labels_match.
    by rewrite (getitem_absent dets "is_injection").
Qed.

(** The same, at the example table with its [is_injection] column removed. *)
Lemma C9_missing_is_injection_raises_witness :
  (∃ nn, no_nans (drop_column "is_injection" ex_df) = Ok nn) ∧
  validate_all (dir_of (drop_column "is_injection" ex_df) ex_inj)
  = Raise (KeyError "is_injection").
Proof.
  apply (C9_missing_is_injection_raises _ _ ex_inj object_meta);
    try reflexivity.
  - intros c Hc. apply list_elem_of_In in Hc. apply list_elem_of_In.
    simpl in *. tauto.
  - apply (proj1 (bool_decide_eq_false _)). vm_refl.
Defined.

(** ** The guarded pivot *)

(** A pivoted table is rectangular: its size is its number of cells. *)
Lemma unstack_size agged :
  length (concat (mx_values (unstack agged))) = matrix_size (unstack agged).
Proof.
  unfold matrix_size, shape. simpl.
  generalize (sort_unique scalar_eqb scalar_leb (map (λ kv, kv.1.2) agged)) as cols.
  intros cols.
  induction (sort_unique scalar_eqb scalar_leb (map (λ kv, kv.1.1) agged))
    as [|o idx IH]; simpl; [done|].
  by rewrite length_app, length_map, IH.
Qed.

(** A [mag] column of strings makes the pivot raise. *)
Example pivot_mag_raises : pivot_mag str_dets = Raise TypeError.
Proof. vm_refl. Qed.

(** The pivot step absorbs that exception; the comparison of [mag] with
    10 in the range check then raises one of its own, which nothing
    catches. *)
Example validate_all_string_mag :
  is_Ok (no_nans str_dets) = true ∧
  all_valid (check_pivot str_dets init) = false ∧
  is_Ok (labels_match str_dets no_injections) = true ∧
  reasonable_ranges str_dets = Raise TypeError ∧
  validate_all (dir_of str_dets no_injections) = Raise TypeError.
Proof. split_and!; vm_refl. Qed.

(** Whenever [validate_all] returns, the pivot went through and its
    shape and sparsity are in the report. *)
Lemma validate_all_matrix dir dets ok rep :
  dir !! "detections.csv" = Some dets →
  validate_all dir = Ok (ok, rep) →
  ∃ ts, pivot_mag dets = Ok ts ∧
        rep !! "matrix_shape" = Some (VShape (shape ts)) ∧
        rep !! "sparsity" = Some (VFloat (sparsity ts)).
Proof.
  intros Hd H.
  assert (∃ inj, readable dets inj = true) as [inj Hread].
  { destruct (proj1 (validate_all_returns dir)) as (d & i & m & Hd' & _ & _ & Hr);
      [eauto|].
    exists i. congruence. }
  apply validate_all_Ok in H
    as (dets' & inj' & meta & nn & lm & rr & Hd' & _ & _ & _ & _ & _ & _ & ->).
  assert (dets' = dets) as -> by congruence.
  pose proof (readable_pivot _ _ Hread) as Hp.
  destruct (pivot_mag dets) as [ts|] eqn:E; [|done].
  exists ts. split; [done|].
  unfold final. rewrite !set_result_lookup. simpl.
  unfold check_pivot. rewrite E. simpl. split; by simplify_map_eq.
Qed.

(** The handler of the pivot step, in any state: a failure of the pivot
    is recorded as [matrix_ok = false] and clears the overall flag. *)
Lemma check_pivot_handler dets st e :
  pivot_mag dets = Raise e →
  results (check_pivot dets st) !! "matrix_ok" = Some (VBool false) ∧
  all_valid (check_pivot dets st) = false.
Proof.
  intros H. unfold check_pivot. rewrite H. simpl.
  split; [by simplify_map_eq | done].
Qed.

(** C6 at its failing input.  On a detections table whose [mag] is text
    the pivot raises; the pivot step catches the exception, records
    [matrix_ok = false] and clears the overall flag, as the claim says;
    but the range check then compares [mag] with a number outside any
    handler, and [validate_all] raises [TypeError] instead of returning
    that report.  This holds for every input: whenever the pivot raises,
    [validate_all] raises, so a report with [matrix_ok = false] is never
    returned.  On the inputs on which [validate_all] returns, the pivot
    succeeded and the report holds [matrix_ok = true], the shape of the
    matrix and its sparsity. *)
Theorem C6_pivot_failure_not_reported :
  (pivot_mag str_dets = Raise TypeError ∧
   results (check_pivot str_dets init) !! "matrix_ok" = Some (VBool false) ∧
   all_valid (check_pivot str_dets init) = false ∧
   validate_all (dir_of str_dets no_injections) = Raise TypeError) ∧
  (∀ dets st e,
     pivot_mag dets = Raise e →
     results (check_pivot dets st) !! "matrix_ok" = Some (VBool false) ∧
     all_valid (check_pivot dets st) = false) ∧
  (∀ dir dets e,
     dir !! "detections.csv" = Some dets →
     pivot_mag dets = Raise e →
     ∃ e', validate_all dir = Raise e') ∧
  (∀ dir dets ok rep,
     dir !! "detections.csv" = Some dets →
     validate_all dir = Ok (ok, rep) →
     ∃ ts, pivot_mag dets = Ok ts ∧
           rep !! "matrix_ok" = Some (VBool true) ∧
           rep !! "matrix_shape" = Some (VShape (shape ts)) ∧
           rep !! "sparsity" = Some (VFloat (sparsity ts))).
Proof.
  split_and!.
  - vm_refl.
  - vm_refl.
  - vm_refl.
  - vm_refl.
  - apply check_pivot_handler.
  - intros dir dets e Hd Hp.
    destruct (validate_all dir) as [[ok rep]|e'] eqn:E; [|by exists e'].
    destruct (validate_all_matrix _ _ _ _ Hd E) as (ts & Hts & _). congruence.
  - intros dir dets ok rep Hd H.
    destruct (validate_all_matrix _ _ _ _ Hd H) as (ts & Hp & Hshape & Hsp).
    exists ts. split_and!; try done.
    apply validate_all_Ok in H
      as (dets' & inj & meta & nn & lm & rr & Hd' & _ & _ & _ & _ & _ & _ & ->).
    assert (dets' = dets) as -> by congruence.
    by rewrite final_matrix_ok, Hp.
Qed.

(** ** Checks that are recorded only *)

(** C5: the overall flag returned by [validate_all] is the conjunction of
    the [columns_ok] and [matrix_ok] entries, whatever [labels_match] and
    [reasonable_ranges] say; and every combination of the overall flag
    with the two recorded checks occurs.  In particular a detection
    flagged with injection id 5 that the injection table lacks, and a
    detection with [mag = 35], leave the overall flag true. *)
Theorem C5_recorded_checks_do_not_gate :
  (∀ dir ok rep,
     validate_all dir = Ok (ok, rep) →
     ∃ c m lm rr,
       rep !! "columns_ok" = Some (VBool c) ∧
       rep !! "matrix_ok" = Some (VBool m) ∧
       rep !! "labels_match" = Some (VBool lm) ∧
       rep !! "reasonable_ranges" = Some (VBool rr) ∧
       ok = c && m) ∧
  (∀ ok lm rr, ∃ rep,
     validate_all (dir_of (probe_dets ok rr) (probe_inj lm)) = Ok (ok, rep) ∧
     rep !! "labels_match" = Some (VBool lm) ∧
     rep !! "reasonable_ranges" = Some (VBool rr)).
Proof.
  split.
  - intros dir ok rep H.
    apply validate_all_Ok in H
      as (dets & inj & meta & nn & lm & rr & _ & _ & _ & _ & _ & _ & -> & ->).
    exists (columns_ok dets), (is_Ok (pivot_mag dets)), lm, rr.
    split_and!;
      auto using final_columns_ok, final_matrix_ok, final_labels_match,
                 final_reasonable_ranges, final_valid.
  - intros ok lm rr.
    exists (results (final (probe_dets ok rr) true lm rr)).
    destruct ok, lm, rr; split_and!; vm_refl.
Qed.

(** ** Label consistency *)

Lemma cell_eqb_refl a : cell_eqb a a = true.
Proof. destruct a; [apply scalar_eqb_refl | done]. Qed.

Lemma cell_eqb_sym a b : cell_eqb a b = cell_eqb b a.
Proof. destruct a, b; simpl; [apply scalar_eqb_sym | done..]. Qed.

Lemma cell_eqb_trans a b c :
  cell_eqb a b = true → cell_eqb b c = true → cell_eqb a c = true.
Proof. destruct a, b, c; simpl; try done. apply scalar_eqb_trans. Qed.

Section UniqueFacts.
Context {A : Type} (eqb : A -> A -> bool).
Hypothesis eqb_refl : ∀ a, eqb a a = true.
Hypothesis eqb_trans : ∀ a b c, eqb a b = true → eqb b c = true → eqb a c = true.

Lemma unique_incl l x : x ∈ unique eqb l → x ∈ l.
Proof.
  revert x. induction l as [|y l IH]; intros x; simpl; [done|].
  rewrite !elem_of_cons. intros [->|H]; [by left|].
  apply list_elem_of_In, filter_In in H as [H _].
  right. by apply IH, list_elem_of_In.
Qed.

Lemma unique_has l x : x ∈ l → ∃ y, y ∈ unique eqb l ∧ eqb y x = true.
Proof.
  induction l as [|z l IH]; simpl; [by rewrite elem_of_nil|].
  rewrite elem_of_cons. intros [->|H].
  - exists z. split; [left | apply eqb_refl].
  - destruct (IH H) as (y & Hy & Hyx).
    destruct (eqb z y) eqn:E.
    + exists z. split; [left | by apply eqb_trans with y].
    + exists y. split; [|done]. right.
      apply list_elem_of_In, filter_In. split; [by apply list_elem_of_In|].
      by rewrite E.
Qed.
End UniqueFacts.

Lemma filter_length_zero {A} (p : A → bool) (l : list A) :
  (length (List.filter p l) =? 0)%nat = true ↔ ∀ x, x ∈ l → p x = false.
Proof.
  rewrite Nat.eqb_eq, length_zero_iff_nil. split.
  - intros H x Hx. destruct (p x) eqn:E; [|done].
    assert (In x (List.filter p l)) as Hin
      by (apply filter_In; split; [by apply list_elem_of_In | done]).
    by rewrite H in Hin.
  - intros H. destruct (List.filter p l) as [|x l'] eqn:E; [done|].
    assert (In x (x :: l')) as Hin by (by left).
    rewrite <- E in Hin. apply filter_In in Hin as [Hin Hp].
    apply list_elem_of_In, H in Hin. congruence.
Qed.

(** An id is in the deduplicated table exactly when the table lists it. *)
Lemma listed_unique x tbl :
  existsb (cell_eqb (Some x)) (unique cell_eqb tbl) = true ↔
  ∃ y, Some y ∈ tbl ∧ scalar_eqb x y = true.
Proof.
  rewrite existsb_exists. split.
  - intros ([y|] & Hy & Hxy); [|done].
    exists y. split; [|done].
    by apply (unique_incl cell_eqb), list_elem_of_In.
  - intros (y & Hy & Hxy).
    destruct (unique_has cell_eqb cell_eqb_refl cell_eqb_trans tbl (Some y) Hy)
      as (c & Hc & Hcy).
    exists c. split; [by apply list_elem_of_In|].
    apply cell_eqb_trans with (Some y); [done | by rewrite cell_eqb_sym].
Qed.

(** The ids the flagged detections refer to. *)
Lemma referenced_ids dets x :
  x ∈ dropna (map (λ r : row, r !! "injection_id")
                  (List.filter flagged (df_rows dets))) ↔
  ∃ r, r ∈ df_rows dets ∧ flagged r = true ∧ r !! "injection_id" = Some x.
Proof.
  unfold dropna. rewrite list_elem_of_omap. split.
  - intros (c & Hc & Hx). simpl in Hx. subst c.
    apply list_elem_of_fmap in Hc as (r & Hr & Hin).
    apply list_elem_of_In, filter_In in Hin as [Hin Hf].
    exists r. split_and!; [by apply list_elem_of_In | done | done].
  - intros (r & Hr & Hf & Hx). exists (Some x). split; [|done].
    apply list_elem_of_fmap. exists r. split; [done|].
    apply list_elem_of_In, filter_In. split; [by apply list_elem_of_In | done].
Qed.

(** C7: when the label check returns, [labels_match] is true exactly when
    every injection id referred to by a detection flagged
    [is_injection = 1] is one of the injection table's ids. *)
Theorem C7_labels_match_iff_subset dir dets inj ok rep :
  dir !! "detections.csv" = Some dets →
  dir !! "injections.csv" = Some inj →
  validate_all dir = Ok (ok, rep) →
  ∃ lm,
    rep !! "labels_match" = Some (VBool lm) ∧
    (lm = true ↔
     ∀ r id, r ∈ df_rows dets → flagged r = true →
             r !! "injection_id" = Some id →
             ∃ r' id', r' ∈ df_rows inj ∧ r' !! "injection_id" = Some id' ∧
                       scalar_eqb id id' = true).
Proof.
  intros Hd Hi H.
  apply validate_all_Ok in H
    as (dets' & inj' & meta & nn & lm & rr & Hd' & Hi' & _ & _ & Hl & _ & _ & ->).
  assert (dets' = dets) as -> by congruence.
  assert (inj' = inj) as -> by congruence.
  exists lm. split; [apply final_labels_match|].
  unfold labels_match in Hl.
  bind_inv Hl E1. bind_inv Hl E2. bind_inv Hl E3. injection Hl as <-.
  apply getitem_Ok in E2 as [_ ->]. apply getitem_Ok in E3 as [_ ->].
  unfold set_difference. rewrite filter_length_zero. simpl. split.
  - intros Hall r id Hr Hf Hid.
    destruct (unique_has scalar_eqb scalar_eqb_refl scalar_eqb_trans
                (dropna (map (λ r : row, r !! "injection_id")
                             (List.filter flagged (df_rows dets)))) id)
      as (y & Hy & Hyid).
    { apply referenced_ids. eauto. }
    specialize (Hall y Hy). apply negb_false_iff, listed_unique in Hall
      as (id' & Hin & Hyid').
    apply list_elem_of_fmap in Hin as (r' & Hr' & Hin').
    exists r', id'. split_and!; [done..|].
    apply scalar_eqb_trans with y; [by rewrite scalar_eqb_sym | done].
  - intros Hall x Hx. apply negb_false_iff, listed_unique.
    apply (unique_incl scalar_eqb), referenced_ids in Hx as (r & Hr & Hf & Hid).
    destruct (Hall r x Hr Hf Hid) as (r' & id' & Hr' & Hid' & Hxid).
    exists id'. split; [|done].
    apply list_elem_of_fmap. eauto.
Qed.

(** The same, at the example table and an injection table listing id 5. *)
Lemma C7_labels_match_iff_subset_witness :
  ∃ lm,
    results (final ex_df true true false) !! "labels_match" = Some (VBool lm) ∧
    (lm = true ↔
     ∀ r id, r ∈ df_rows ex_df → flagged r = true →
             r !! "injection_id" = Some id →
             ∃ r' id', r' ∈ df_rows ex_inj ∧ r' !! "injection_id" = Some id' ∧
                       scalar_eqb id id' = true).
Proof.
  apply (C7_labels_match_iff_subset (dir_of ex_df ex_inj) ex_df ex_inj true);
    [reflexivity | reflexivity | vm_refl].
Defined.

Lemma dropna_cons c l :
  dropna (c :: l) = match c with Some v => v :: dropna l | None => dropna l end.
Proof. by destruct c. Qed.

Lemma dropna_ids_select rows :
  dropna (map (λ r : row, r !! "injection_id") (List.filter flagged rows)) =
  dropna (map (λ r : row, r !! "injection_id")
              (List.filter flagged (List.filter has_injection_id rows))).
Proof.
  induction rows as [|r rows IH]; [done|].
  cbn [List.filter]. unfold has_injection_id at 1.
  destruct (r !! "injection_id") as [x|] eqn:E; cbn [notna isna negb List.filter].
  - destruct (flagged r); [|done].
    cbn [map]. by rewrite E, !dropna_cons, IH.
  - destruct (flagged r); [|done].
    cbn [map]. by rewrite E, dropna_cons.
Qed.

(** C10: flagged detections without an injection id take no part in the
    label check.  Removing every detection whose [injection_id] is missing
    leaves its outcome unchanged; when no flagged detection carries an
    id, [labels_match] is true whatever the injection table holds; and
    [validate_all] reports [labels_match = true] for a table whose only
    detection is flagged without an id, against an empty injection
    table. *)
Theorem C10_missing_ids_ignored :
  (∀ dets inj,
     labels_match dets inj = labels_match (select has_injection_id dets) inj) ∧
  (∀ dets inj,
     "is_injection" ∈ df_columns dets →
     "injection_id" ∈ df_columns dets →
     "injection_id" ∈ df_columns inj →
     (∀ r, r ∈ df_rows dets → flagged r = true → r !! "injection_id" = None) →
     labels_match dets inj = Ok true) ∧
  (∃ r rep,
     r ∈ df_rows orphan_dets ∧ flagged r = true ∧ r !! "injection_id" = None ∧
     df_rows no_injections = [] ∧
     validate_all (dir_of orphan_dets no_injections) = Ok (true, rep) ∧
     rep !! "labels_match" = Some (VBool true)).
Proof.
  split_and!.
  - intros dets inj. unfold labels_match, getitem, has_column. simpl.
    destruct (bool_decide ("is_injection" ∈ df_columns dets)); [simpl|done].
    destruct (bool_decide ("injection_id" ∈ df_columns dets)); [simpl|done].
    by rewrite dropna_ids_select.
  - intros dets inj H1 H2 H3 Hall. unfold labels_match.
    rewrite (getitem_present dets "is_injection") by done. simpl.
    rewrite (getitem_present (select flagged dets) "injection_id") by done.
    simpl. rewrite (getitem_present inj) by done. simpl.
    replace (dropna _) with (@nil scalar); [done|].
    symmetry. destruct (dropna _) as [|x l] eqn:E; [done|].
    assert (x ∈ x :: l) as Hx by left. rewrite <- E in Hx.
    apply referenced_ids in Hx as (r & Hr & Hf & Hid).
    rewrite (Hall r Hr Hf) in Hid. done.
  - exists (det 1 1 (Some (Num 15)) (Some (Num 1)) (Some (Num 1)) None),
           (results (final orphan_dets true true true)).
    split_and!; [by left | vm_refl | vm_refl | done | vm_refl | vm_refl].
Qed.

(** ** The transformer, step by step *)

(** What [create_pipeline_ready_data] leaves in the output directory and
    returns, by the step at which it stops. *)
Lemma create_pipeline_ready_data_unfold dir out :
  create_pipeline_ready_data dir out =
  match dir !! "detections.csv" with
  | None => (out, Raise (FileNotFoundError "detections.csv"))
  | Some dets =>
      match pivot_mag dets with
      | Raise e => (out, Raise e)
      | Ok ts0 =>
          let ts := bfill (ffill ts0) in
          let out1 := <["time_series_matrix.csv" := CsvFile ts]> out in
          match pivot_labels dets with
          | Raise e => (out1, Raise e)
          | Ok l0 =>
              let labels := fillna (Num 0) l0 in
              let out2 := <["anomaly_labels.csv" := CsvFile labels]> out1 in
              match values_mean (mx_values labels) with
              | Raise e => (out2, Raise e)
              | Ok rate =>
                  let md := metadata_of ts rate in
                  (<["data_metadata.json" := JsonFile md]> out2,
                   Ok (ts, labels, md))
              end
          end
      end
  end.
Proof.
  unfold create_pipeline_ready_data, read_csv, pivot_mag, pivot_labels.
  unfold mbind, io_bind, mret, io_ret, lift, write.
  destruct (dir !! "detections.csv") as [dets|]; [|done].
  destruct (pivot_table dets _ _ "mag" _) as [ts0|]; [|done].
  destruct (pivot_table dets _ _ "is_injection" _) as [l0|]; [|done].
  by destruct (values_mean _).
Qed.

(** Once the mean-mag pivot succeeded, the filled matrix is on disk,
    whatever happens afterwards. *)
Lemma time_series_written dir out dets ts0 :
  dir !! "detections.csv" = Some dets →
  pivot_mag dets = Ok ts0 →
  (create_pipeline_ready_data dir out).1 !! "time_series_matrix.csv"
  = Some (CsvFile (bfill (ffill ts0))).
Proof.
  intros Hd Hp. rewrite create_pipeline_ready_data_unfold, Hd, Hp.
  destruct (pivot_labels dets) as [l0|]; simpl; [|by simplify_map_eq].
  destruct (values_mean _); simpl; by simplify_map_eq.
Qed.

Lemma pivot_row_observed df index columns values f m r :
  pivot_table df index columns values f = Ok m →
  r ∈ mx_values m → existsb notna r = true.
Proof.
  intros H Hr. apply pivot_table_Ok in H. subst m.
  eapply unstack_row_observed; [apply dropna_groups_observed | done].
Qed.

(** C3, as stated, fails on its example: the pivoted row of object 1 in
    [ex_df] is [NaN, 5, NaN, 7, NaN], and the row written for it is
    [5, 5, 5, 7, 7], the cell between the two observations being filled
    forward, not [5, 5, 7, 7, 7]. *)
Lemma C3_counterexample :
  ∃ ts0 ts,
    pivot_mag ex_df = Ok ts0 ∧
    mx_values ts0 !! 0%nat
      = Some [NaN; Some (Num 5); NaN; Some (Num 7); NaN] ∧
    (create_pipeline_ready_data (dir_of ex_df ex_inj) ∅).1
      !! "time_series_matrix.csv" = Some (CsvFile ts) ∧
    mx_values ts !! 0%nat
      = Some [Some (Num 5); Some (Num 5); Some (Num 5); Some (Num 7); Some (Num 7)] ∧
    mx_values ts !! 0%nat
      ≠ Some [Some (Num 5); Some (Num 5); Some (Num 7); Some (Num 7); Some (Num 7)].
Proof.
  destruct (pivot_mag ex_df) as [ts0|] eqn:E; [|by vm_compute in E].
  exists ts0, (bfill (ffill ts0)).
  split; [done|].
  rewrite (time_series_written _ _ ex_df ts0) by done.
  assert (ts0 = {| mx_index := [Num 1; Num 2];
                   mx_columns := [Num 1; Num 2; Num 3; Num 4; Num 5];
                   mx_values :=
                     [[NaN; Some (Num 5); NaN; Some (Num 7); NaN];
                      [Some (Num 20); NaN; Some (Num 21); NaN; Some (Num 23)]] |})
    as -> by (vm_compute in E; congruence).
  split_and!; [done..|]. simpl. intros [=].
Qed.

(** C3 (amended): the matrix written by [create_pipeline_ready_data] has
    the labels of the pivoted mean-mag matrix; every row is the forward
    fill followed by the backward fill of the pivoted row: each cell
    holds the most recent observed value at or before its epoch, and the
    leading cells, which have none, hold the first observed value of the
    row; the written matrix has no missing cell; and a row
    [NaN, 5, NaN, 7, NaN] becomes [5, 5, 5, 7, 7]. *)
Theorem C3_fill_rule dir out dets ts0 :
  dir !! "detections.csv" = Some dets →
  pivot_mag dets = Ok ts0 →
  ∃ ts,
    (create_pipeline_ready_data dir out).1 !! "time_series_matrix.csv"
      = Some (CsvFile ts) ∧
    mx_index ts = mx_index ts0 ∧
    mx_columns ts = mx_columns ts0 ∧
    mx_values ts = map (λ r, bfill_row (ffill_row r)) (mx_values ts0) ∧
    (∀ r i, r ∈ mx_values ts0 → i < length r →
       bfill_row (ffill_row r) !! i =
         Some (match last_observed (take (S i) r) with
               | Some v => Some v
               | None => first_observed r
               end)) ∧
    (∀ r c, r ∈ mx_values ts → c ∈ r → c ≠ NaN) ∧
    bfill_row (ffill_row [NaN; Some (Num 5); NaN; Some (Num 7); NaN])
      = [Some (Num 5); Some (Num 5); Some (Num 5); Some (Num 7); Some (Num 7)].
Proof.
  intros Hd Hp. exists (bfill (ffill ts0)).
  split_and!; try done.
  - by apply time_series_written with dets.
  - simpl. by rewrite map_map.
  - intros r i _ Hi. by apply fill_rule.
  - intros r c Hr Hc. simpl in Hr. rewrite map_map in Hr.
    apply list_elem_of_fmap in Hr as (r0 & -> & Hr0).
    pose proof (fill_no_missing r0 (pivot_row_observed _ _ _ _ _ _ _ Hp Hr0)) as Hall.
    rewrite Forall_forall in Hall. specialize (Hall c Hc). by destruct c.
Qed.

(** The same, at the example table: both rows as written. *)
Lemma C3_fill_rule_witness :
  ∃ ts,
    (create_pipeline_ready_data (dir_of ex_df ex_inj) ∅).1
      !! "time_series_matrix.csv" = Some (CsvFile ts) ∧
    mx_values ts
      = [[Some (Num 5); Some (Num 5); Some (Num 5); Some (Num 7); Some (Num 7)];
         [Some (Num 20); Some (Num 20); Some (Num 21); Some (Num 21);
          Some (Num 23)]].
Proof.
  destruct (C3_fill_rule (dir_of ex_df ex_inj) ∅ ex_df
              {| mx_index := [Num 1; Num 2];
                 mx_columns := [Num 1; Num 2; Num 3; Num 4; Num 5];
                 mx_values :=
                   [[NaN; Some (Num 5); NaN; Some (Num 7); NaN];
                    [Some (Num 20); NaN; Some (Num 21); NaN; Some (Num 23)]] |})
    as (ts & Hw & _ & _ & Hv & _); [reflexivity | vm_refl |].
  exists ts. split; [exact Hw | exact Hv].
Defined.

(** ** Metadata *)

Lemma create_pipeline_ready_data_Ok dir out out' ts labels md :
  create_pipeline_ready_data dir out = (out', Ok (ts, labels, md)) →
  ∃ dets ts0 l0 rate,
    dir !! "detections.csv" = Some dets ∧
    pivot_mag dets = Ok ts0 ∧
    pivot_labels dets = Ok l0 ∧
    values_mean (mx_values (fillna (Num 0) l0)) = Ok rate ∧
    ts = bfill (ffill ts0) ∧
    labels = fillna (Num 0) l0 ∧
    md = metadata_of ts rate ∧
    out' = <["data_metadata.json" := JsonFile md]>
             (<["anomaly_labels.csv" := CsvFile labels]>
                (<["time_series_matrix.csv" := CsvFile ts]> out)).
Proof.
  rewrite create_pipeline_ready_data_unfold.
  destruct (dir !! "detections.csv") as [dets|]; [|done].
  destruct (pivot_mag dets) as [ts0|] eqn:E1; [|done].
  destruct (pivot_labels dets) as [l0|] eqn:E2; [|done]. simpl.
  destruct (values_mean _) as [rate|] eqn:E3; [|done].
  intros [= <- <- <- <-]. by exists dets, ts0, l0, rate.
Qed.

(** A numeric array without missing cells is a list of numbers, and its
    mean is their sum over their count. *)
Lemma values_mean_numbers vals rate :
  Forall (λ c : cell, notna c = true) (concat vals) →
  values_mean vals = Ok rate →
  ∃ qs, concat vals = map (λ q, Some (Num q)) qs ∧
        rate = fdiv (Qsum qs) (length qs).
Proof.
  unfold values_mean. generalize (concat vals) as cells. intros cells Hobs.
  destruct (forallb is_num cells) eqn:Hnum; [|done].
  assert (existsb isna cells = false) as ->.
  { apply not_true_is_false. intros (c & Hc & Hna)%existsb_exists.
    apply list_elem_of_In in Hc.
    rewrite Forall_forall in Hobs. specialize (Hobs c Hc).
    unfold notna in Hobs. by rewrite Hna in Hobs. }
  intros [= <-].
  assert (∃ qs, cells = map (λ q, Some (Num q)) qs ∧
                omap to_num (dropna cells) = qs) as (qs & Hc & Hq).
  { clear -Hobs Hnum. induction cells as [|c cells IH]; [by exists []|].
    apply Forall_cons in Hobs as [Hc Hobs]. simpl in Hnum.
    apply andb_true_iff in Hnum as [Hn Hnum].
    destruct (IH Hobs Hnum) as (qs & -> & Hq).
    destruct c as [[q|s]|]; try done.
    exists (q :: qs). split; [done|]. rewrite dropna_cons. simpl.
    f_equal. exact Hq. }
  exists qs. split; [done|]. rewrite Hq. by rewrite Hc, length_map.
Qed.

Lemma fillna_observed v m :
  Forall (λ c : cell, notna c = true) (concat (mx_values (fillna v m))).
Proof.
  simpl. induction (mx_values m) as [|r vals IH]; simpl; [done|].
  apply Forall_app. split; [|done].
  apply Forall_forall. intros c Hc.
  by apply list_elem_of_fmap in Hc as (c' & -> & _).
Qed.

Lemma pivot_rows_length df index columns values f m :
  pivot_table df index columns values f = Ok m →
  length (mx_values m) = length (mx_index m) ∧
  Forall (λ r, length r = length (mx_columns m)) (mx_values m).
Proof.
  intros H. apply pivot_table_Ok in H. subst m. split.
  - apply unstack_index_length.
  - apply Forall_forall. intros r Hr. by apply unstack_row_length.
Qed.

(** C8: the metadata returned by [create_pipeline_ready_data] is the
    metadata it writes; [n_objects] is the number of rows of the
    time-series matrix and [n_timestamps] its number of columns;
    [anomaly_rate] is the sum of all cells of the label matrix over
    their count; [data_type] and [source] are the two fixed strings. *)
Theorem C8_metadata dir out out' ts labels md :
  create_pipeline_ready_data dir out = (out', Ok (ts, labels, md)) →
  out' !! "data_metadata.json" = Some (JsonFile md) ∧
  shape ts = (n_objects md, n_timestamps md) ∧
  length (mx_values ts) = n_objects md ∧
  Forall (λ r, length r = n_timestamps md) (mx_values ts) ∧
  (∃ qs, concat (mx_values labels) = map (λ q, Some (Num q)) qs ∧
         anomaly_rate md = fdiv (Qsum qs) (length qs)) ∧
  data_type md = "time_series" ∧
  source md = "uploaded_dataset".
Proof.
  intros H. apply create_pipeline_ready_data_Ok in H
    as (dets & ts0 & l0 & rate & _ & Hp & _ & Hr & -> & -> & -> & ->).
  destruct (pivot_rows_length _ _ _ _ _ _ Hp) as [Hrows Hcols].
  split_and!; try done.
  - by simplify_map_eq.
  - simpl. by rewrite !length_map.
  - simpl. rewrite map_map. apply Forall_forall. intros r Hr'.
    apply list_elem_of_fmap in Hr' as (r0 & -> & Hr0).
    rewrite length_bfill_row. unfold ffill_row. rewrite length_ffill_from.
    by apply (proj1 (Forall_forall _ _) Hcols).
  - apply values_mean_numbers; [apply fillna_observed | done].
Qed.

(** The same, at the example table: two objects, five epochs, one
    injected cell out of ten. *)
Lemma C8_metadata_witness :
  ex_out !! "data_metadata.json" = Some (JsonFile ex_metadata) ∧
  shape ex_ts = (n_objects ex_metadata, n_timestamps ex_metadata) ∧
  length (mx_values ex_ts) = n_objects ex_metadata ∧
  Forall (λ r, length r = n_timestamps ex_metadata) (mx_values ex_ts) ∧
  (∃ qs, concat (mx_values ex_labels) = map (λ q, Some (Num q)) qs ∧
         anomaly_rate ex_metadata = fdiv (Qsum qs) (length qs)) ∧
  data_type ex_metadata = "time_series" ∧
  source ex_metadata = "uploaded_dataset".
Proof.
  apply (C8_metadata (dir_of ex_df ex_inj) ∅ ex_out ex_ts ex_labels ex_metadata).
  vm_refl.
Defined.

(** ** Cells and labels of a pivoted table *)

Local Arguments key_eqb : simpl never.

Lemma group_keyed_rows index columns values rows o e :
  group (o, e) (keyed_rows index columns values rows)
  = map (λ r : row, r !! values) (List.filter (at_key index columns o e) rows).
Proof.
  unfold group, keyed_rows, at_key.
  induction rows as [|r rows IH]; [done|]. simpl.
  destruct (r !! index) as [o'|]; simpl; [|exact IH].
  destruct (r !! columns) as [e'|]; simpl; [|exact IH].
  destruct (key_eqb (o, e) (o', e')); simpl; [f_equal|]; exact IH.
Qed.

Lemma aggregate_nil f : aggregate f [] = None.
Proof. by destruct f. Qed.

Lemma group_congr k k' keyed :
  key_eqb k k' = true → group k keyed = group k' keyed.
Proof.
  intros H. unfold group. f_equal. apply filter_ext.
  intros kv. by apply key_eqb_congr.
Qed.

(** A cell of the grouped table is the aggregate of the values at its
    key, missing when there is none to aggregate. *)
Lemma lookup_key_groups f keyed k :
  lookup_key k (dropna_groups (groupby_agg f keyed)) = aggregate f (group k keyed).
Proof.
  unfold lookup_key.
  destruct (List.find _ _) as [kv|] eqn:F.
  - apply find_some in F as [Hin Hk].
    apply filter_In in Hin as [Hin _].
    apply in_map_iff in Hin as (k' & <- & _). simpl in *.
    by rewrite (group_congr k k').
  - destruct (group k keyed) as [|c vs] eqn:G; [by rewrite aggregate_nil|].
    rewrite <- G.
    assert (In c (group k keyed)) as Hc by (rewrite G; by left).
    apply in_map_iff in Hc as (kv0 & _ & Hkv0).
    apply filter_In in Hkv0 as [Hkv0 Hk0].
    destruct (sort_unique_has key_eqb key_leb key_eqb_refl key_eqb_sym
                (map fst keyed) kv0.1) as (k' & Hk' & Hkk).
    { apply list_elem_of_fmap. exists kv0. by rewrite list_elem_of_In. }
    assert (key_eqb k k' = true) as Hkk'.
    { apply key_eqb_trans with kv0.1; [done | by rewrite key_eqb_sym]. }
    rewrite (group_congr k k') by done.
    destruct (aggregate f (group k' keyed)) as [v|] eqn:A; [|done].
    pose proof (find_none _ _ F (k', Some v)) as N. simpl in N.
    rewrite Hkk' in N. discriminate N.
    apply filter_In. split; [|done].
    apply in_map_iff. exists k'. rewrite A. by rewrite <- list_elem_of_In.
Qed.












(** A cell of a pivoted table is the aggregate of the values found at
    its (index, column) labels. *)
Lemma pivot_cell df index columns values f m i j o e :
  pivot_table df index columns values f = Ok m →
  mx_index m !! i = Some o →
  mx_columns m !! j = Some e →
  mx_values m !! i ≫= (.!! j)
  = Some (aggregate f (map (λ r : row, r !! values)
                           (List.filter (at_key index columns o e) (df_rows df)))).
Proof.
  intros H Hi Hj. apply pivot_table_Ok in H. subst m.
  rewrite (unstack_cell _ i j o e) by done.
  unfold pivot_groups. by rewrite lookup_key_groups, group_keyed_rows.
Qed.






(** * Further properties *)

(** ** Failures of the validator *)

(** X1: [validate_all] raises [FileNotFoundError] for the first of its
    three input files that is absent, in the order [detections.csv],
    [injections.csv], [object_meta.csv]; the object metadata, which no
    check reads, must be there all the same. *)
Theorem X1_first_missing_file dir name :
  List.find (absent dir) input_files = Some name →
  validate_all dir = Raise (FileNotFoundError name).
Proof.
  unfold validate_all, read_csv, input_files, absent. simpl.
  destruct (dir !! "detections.csv"); [|by intros [= <-]].
  destruct (dir !! "injections.csv"); [|by intros [= <-]].
  destruct (dir !! "object_meta.csv"); [done | by intros [= <-]].
Qed.

(** The same, at a directory holding the two tables that are read. *)
Lemma X1_first_missing_file_witness :
  validate_all no_meta_dir = Raise (FileNotFoundError "object_meta.csv").
Proof. apply X1_first_missing_file. vm_refl. Defined.

(** X2: the content of [object_meta.csv] never reaches the result:
    replacing the table by any other leaves what [validate_all] returns
    or raises unchanged. *)
Theorem X2_object_meta_unused dir meta meta' :
  dir !! "object_meta.csv" = Some meta →
  validate_all (<["object_meta.csv" := meta']> dir) = validate_all dir.
Proof.
  intros H. unfold validate_all, read_csv.
  rewrite (lookup_insert_ne dir "object_meta.csv" "detections.csv") by done.
  rewrite (lookup_insert_ne dir "object_meta.csv" "injections.csv") by done.
  rewrite lookup_insert_eq, H.
  destruct (dir !! "detections.csv"); [|done].
  by destruct (dir !! "injections.csv").
Qed.

Lemma X2_object_meta_unused_witness :
  validate_all (<["object_meta.csv" := ex_df]> (dir_of ex_df ex_inj))
  = validate_all (dir_of ex_df ex_inj).
Proof. apply (X2_object_meta_unused _ object_meta). reflexivity. Defined.

(** X3: a detections table lacking any of [object_id], [epoch_day],
    [mag], [flux] makes [validate_all] raise, at the NaN check, one
    [KeyError] that names every one of these columns that is absent and
    no other, after the column check and before any other check,
    whatever else the tables hold. *)
Theorem X3_absent_critical_columns dir dets inj meta c :
  dir !! "detections.csv" = Some dets →
  dir !! "injections.csv" = Some inj →
  dir !! "object_meta.csv" = Some meta →
  c ∈ critical_cols → c ∉ df_columns dets →
  ∃ absent,
    validate_all dir = Raise (KeyErrorLabels absent) ∧
    (∀ k, k ∈ absent ↔ k ∈ critical_cols ∧ k ∉ df_columns dets) ∧
    absent `sublist_of` critical_cols.
Proof.
  intros Hd Hi Hm Hc Hn. exists (absent_labels dets critical_cols).
  split_and!.
  - by apply (validate_all_missing_critical _ _ inj meta c).
  - intros k. apply absent_labels_spec.
  - unfold absent_labels. generalize critical_cols. intros cs.
    induction cs as [|x cs IH]; simpl; [constructor|].
    destruct (negb _); by constructor.
Qed.

(** The same, with [epoch_day] and [flux] both removed: the exception
    names the two. *)
Lemma X3_absent_critical_columns_witness :
  ∃ absent,
    validate_all
      (dir_of (drop_column "flux" (drop_column "epoch_day" ex_df)) ex_inj)
    = Raise (KeyErrorLabels absent) ∧
    (∀ k, k ∈ absent ↔
          k ∈ critical_cols ∧
          k ∉ df_columns (drop_column "flux" (drop_column "epoch_day" ex_df))) ∧
    absent `sublist_of` critical_cols.
Proof.
  apply (X3_absent_critical_columns _ _ ex_inj object_meta "flux");
    [reflexivity | reflexivity | reflexivity | |].
  - apply list_elem_of_In. simpl. tauto.
  - apply (proj1 (bool_decide_eq_false _)). vm_refl.
Defined.

(** With [epoch_day] and [flux] both removed the exception names both, in
    the order of the lookup. *)
Example validate_all_two_absent :
  validate_all
    (dir_of (drop_column "flux" (drop_column "epoch_day" ex_df)) ex_inj)
  = Raise (KeyErrorLabels ["epoch_day"; "flux"]).
Proof. vm_refl. Qed.

(** X4: [validate_all] returns a report exactly when the three files
    exist, the detections table has the columns [object_id], [epoch_day],
    [mag], [flux], [is_injection] and [injection_id], the injection table
    has [injection_id], and neither [mag] nor [flux] holds a string; on
    every other input it raises. *)
Theorem X4_returns_exactly_when_readable dir :
  (∃ ok rep, validate_all dir = Ok (ok, rep)) ↔
  (∃ dets inj meta,
     dir !! "detections.csv" = Some dets ∧
     dir !! "injections.csv" = Some inj ∧
     dir !! "object_meta.csv" = Some meta ∧
     (∀ c, c ∈ ["object_id"; "epoch_day"; "mag"; "flux"; "is_injection";
                "injection_id"] → c ∈ df_columns dets) ∧
     "injection_id" ∈ df_columns inj ∧
     (∀ r s, r ∈ df_rows dets → r !! "mag" ≠ Some (Str s)) ∧
     (∀ r s, r ∈ df_rows dets → r !! "flux" ≠ Some (Str s))).
Proof.
  rewrite validate_all_returns.
  assert (∀ df c, numeric df c = true ↔
                  ∀ r s, r ∈ df_rows df → r !! c ≠ Some (Str s)) as Hnum.
  { intros df c. unfold numeric. rewrite forallb_forall. split.
    - intros H r s Hr E.
      specialize (H (r !! c)). rewrite E in H. discriminate H.
      apply in_map_iff. exists r. by rewrite <- list_elem_of_In.
    - intros H x Hx. apply in_map_iff in Hx as (r & <- & Hr).
      apply list_elem_of_In in Hr.
      destruct (r !! c) as [[q|s]|] eqn:E; try done. by destruct (H r s Hr). }
  split.
  - intros (dets & inj & meta & Hd & Hi & Hm & Hr).
    exists dets, inj, meta. unfold readable in Hr.
    rewrite !andb_true_iff, forallb_forall in Hr.
    destruct Hr as [[[Hc Hin] Hmag] Hflux].
    split_and!; try done.
    + intros c Hc'. apply has_column_true, Hc.
      apply list_elem_of_In in Hc'. simpl in *. tauto.
    + by apply has_column_true.
    + by apply Hnum.
    + by apply Hnum.
  - intros (dets & inj & meta & Hd & Hi & Hm & Hc & Hin & Hmag & Hflux).
    exists dets, inj, meta. split_and!; try done.
    unfold readable. rewrite !andb_true_iff, forallb_forall.
    split_and!.
    + intros c Hc'. apply has_column_true, Hc.
      apply list_elem_of_In. simpl in *. tauto.
    + by apply has_column_true.
    + by apply Hnum.
    + by apply Hnum.
Qed.

(** ** What the report entries mean *)

(** X5: whenever [validate_all] returns, [columns_ok] is true exactly when
    the six required columns are all present, [no_nans] is true exactly
    when no detection misses its [object_id], [epoch_day], [mag] or
    [flux], [matrix_ok] is true, and the overall flag equals
    [columns_ok]. *)
Theorem X5_report_entries dir dets ok rep :
  dir !! "detections.csv" = Some dets →
  validate_all dir = Ok (ok, rep) →
  ∃ c nn,
    rep !! "columns_ok" = Some (VBool c) ∧
    (c = true ↔ ∀ col, col ∈ required_cols → col ∈ df_columns dets) ∧
    rep !! "no_nans" = Some (VBool nn) ∧
    (nn = true ↔
     ∀ r col, r ∈ df_rows dets → col ∈ critical_cols → is_Some (r !! col)) ∧
    rep !! "matrix_ok" = Some (VBool true) ∧
    ok = c.
Proof.
  intros Hd H.
  assert (∃ inj, readable dets inj = true) as [inj Hread].
  { destruct (proj1 (validate_all_returns dir)) as (d & i & m & Hd' & _ & _ & Hr);
      [eauto|].
    exists i. congruence. }
  apply validate_all_Ok in H
    as (dets' & inj' & meta & nn & lm & rr & Hd' & _ & _ & Hn & _ & _ & -> & ->).
  assert (dets' = dets) as -> by congruence.
  pose proof (readable_pivot _ _ Hread) as Hp.
  exists (columns_ok dets), nn. split_and!.
  - apply final_columns_ok.
  - rewrite <- missing_cols_nil. unfold columns_ok.
    by rewrite Nat.eqb_eq, length_zero_iff_nil.
  - apply final_no_nans.
  - rewrite (no_nans_spec _ _ Hn). split; intros H r col Hr Hc.
    + specialize (H r col Hr Hc). by destruct (r !! col).
    + intros E. specialize (H r col Hr Hc). rewrite E in H. by destruct H.
  - by rewrite final_matrix_ok, Hp.
  - by rewrite final_valid, Hp, andb_true_r.
Qed.

Lemma X5_report_entries_witness :
  ∃ c nn,
    results (final nan_dets false true true) !! "columns_ok" = Some (VBool c) ∧
    (c = true ↔ ∀ col, col ∈ required_cols → col ∈ df_columns nan_dets) ∧
    results (final nan_dets false true true) !! "no_nans" = Some (VBool nn) ∧
    (nn = true ↔
     ∀ r col, r ∈ df_rows nan_dets → col ∈ critical_cols → is_Some (r !! col)) ∧
    results (final nan_dets false true true) !! "matrix_ok" = Some (VBool true) ∧
    true = c.
Proof.
  apply (X5_report_entries (dir_of nan_dets no_injections) nan_dets);
    [reflexivity | vm_refl].
Defined.

Lemma compare_num_mask op s mask :
  compare_num op s = Ok mask →
  mask = map (λ c : cell, match c with Some (Num x) => op x | _ => false end) s.
Proof. unfold compare_num. destruct (forallb is_num s); by intros [= <-]. Qed.

Lemma count_true_zero mask :
  (count_true mask =? 0)%nat = true ↔ ∀ b, b ∈ mask → b = false.
Proof. unfold count_true. apply filter_length_zero. Qed.

Lemma zip_with_map_same {A} (f g : A → bool) (l : list A) :
  zip_with orb (map f l) (map g l) = map (λ x, f x || g x) l.
Proof. induction l as [|x l IH]; [done|]. simpl. by rewrite IH. Qed.

Lemma Qlt_bool_false x y : Qlt_bool x y = false ↔ (y <= x)%Q.
Proof. unfold Qlt_bool. by rewrite negb_false_iff, Qle_bool_iff. Qed.

(** When the range check returns, it is true exactly when every [mag]
    that is present lies in 10..30 and every [flux] that is present is
    not negative. *)
Lemma reasonable_ranges_spec dets b :
  reasonable_ranges dets = Ok b →
  (b = true ↔
   ∀ r q, r ∈ df_rows dets →
          (r !! "mag" = Some (Num q) → (10 <= q)%Q ∧ (q <= 30)%Q) ∧
          (r !! "flux" = Some (Num q) → (0 <= q)%Q)).
Proof.
  unfold reasonable_ranges. intros H.
  bind_inv H E1. apply getitem_Ok in E1 as [_ ->].
  bind_inv H E2. apply compare_num_mask in E2 as ->.
  bind_inv H E3. apply compare_num_mask in E3 as ->.
  bind_inv H E4. apply getitem_Ok in E4 as [_ ->].
  bind_inv H E5. apply compare_num_mask in E5 as ->.
  injection H as <-.
  rewrite andb_true_iff, !count_true_zero, zip_with_map_same, !map_map. split.
  - intros [Hmag Hflux] r q Hr. split; intros E.
    + pose proof (Hmag _ (list_elem_of_fmap_2 _ _ _ Hr)) as H. simpl in H.
      rewrite E in H. apply orb_false_iff in H as [H1 H2].
      by apply Qlt_bool_false in H1, H2.
    + pose proof (Hflux _ (list_elem_of_fmap_2 _ _ _ Hr)) as H. simpl in H.
      rewrite E in H. by apply Qlt_bool_false.
  - intros Hall. split; intros x Hx.
    + apply list_elem_of_fmap in Hx as (r & -> & Hr).
      destruct (r !! "mag") as [[q|s]|] eqn:E; try done.
      destruct (proj1 (Hall r q Hr) E) as [H1 H2].
      apply orb_false_iff. by rewrite !Qlt_bool_false.
    + apply list_elem_of_fmap in Hx as (r & -> & Hr).
      destruct (r !! "flux") as [[q|s]|] eqn:E; try done.
      apply Qlt_bool_false. by apply (Hall r q Hr).
Qed.

(** X6: whenever [validate_all] returns, [reasonable_ranges] is true
    exactly when every [mag] that is present lies between 10 and 30,
    bounds included, and every [flux] that is present is not negative; a
    detection with a missing [mag] or [flux] counts as in range. *)
Theorem X6_reasonable_ranges_meaning dir dets ok rep :
  dir !! "detections.csv" = Some dets →
  validate_all dir = Ok (ok, rep) →
  ∃ rr,
    rep !! "reasonable_ranges" = Some (VBool rr) ∧
    (rr = true ↔
     ∀ r q, r ∈ df_rows dets →
            (r !! "mag" = Some (Num q) → (10 <= q)%Q ∧ (q <= 30)%Q) ∧
            (r !! "flux" = Some (Num q) → (0 <= q)%Q)).
Proof.
  intros Hd H.
  apply validate_all_Ok in H
    as (dets' & inj' & meta & nn & lm & rr & Hd' & _ & _ & _ & _ & Hr & _ & ->).
  assert (dets' = dets) as -> by congruence.
  exists rr. split; [apply final_reasonable_ranges|].
  by apply reasonable_ranges_spec.
Qed.

Lemma X6_reasonable_ranges_meaning_witness :
  ∃ rr,
    results (final nan_dets false true true) !! "reasonable_ranges"
      = Some (VBool rr) ∧
    (rr = true ↔
     ∀ r q, r ∈ df_rows nan_dets →
            (r !! "mag" = Some (Num q) → (10 <= q)%Q ∧ (q <= 30)%Q) ∧
            (r !! "flux" = Some (Num q) → (0 <= q)%Q)).
Proof.
  apply (X6_reasonable_ranges_meaning (dir_of nan_dets no_injections) nan_dets true);
    [reflexivity | vm_refl].
Defined.

Lemma numeric_false df c r s :
  r ∈ df_rows df → r !! c = Some (Str s) → numeric df c = false.
Proof.
  intros Hr E. unfold numeric. apply not_true_is_false. intros H.
  rewrite forallb_forall in H. specialize (H (r !! c)).
  rewrite E in H. discriminate H.
  apply in_map_iff. exists r. by rewrite <- list_elem_of_In.
Qed.

Lemma compare_num_numeric op df c :
  numeric df c = true →
  compare_num op (map (λ r : row, r !! c) (df_rows df))
  = Ok (map (λ c : cell, match c with Some (Num x) => op x | _ => false end)
           (map (λ r : row, r !! c) (df_rows df))).
Proof. unfold numeric, compare_num. by intros ->. Qed.

Lemma compare_num_text op df c :
  numeric df c = false →
  compare_num op (map (λ r : row, r !! c) (df_rows df)) = Raise TypeError.
Proof. unfold numeric, compare_num. by intros ->. Qed.

Lemma no_nans_returns dets :
  (∀ c, c ∈ critical_cols → c ∈ df_columns dets) →
  ∃ nn, no_nans dets = Ok nn.
Proof.
  intros H. unfold no_nans. eexists.
  erewrite (proj2 (getitems_Ok dets critical_cols _)); [done|].
  split; [|done]. by apply Forall_forall.
Qed.

(** X7: text in the [mag] or the [flux] column makes [validate_all] raise
    [TypeError] at the range check, when every column it indexes is
    there: the pivot's own failure on such a [mag] column is caught, the
    comparison with a number after it is not, and no report comes
    back. *)
Theorem X7_text_raises_TypeError dir dets inj meta r s :
  dir !! "detections.csv" = Some dets →
  dir !! "injections.csv" = Some inj →
  dir !! "object_meta.csv" = Some meta →
  (∀ c, c ∈ critical_cols → c ∈ df_columns dets) →
  "is_injection" ∈ df_columns dets →
  "injection_id" ∈ df_columns dets →
  "injection_id" ∈ df_columns inj →
  r ∈ df_rows dets →
  r !! "mag" = Some (Str s) ∨ r !! "flux" = Some (Str s) →
  validate_all dir = Raise TypeError.
Proof.
  intros Hd Hi Hm Hc H1 H2 H3 Hr Hs.
  destruct (no_nans_returns dets Hc) as [nn Hn].
  assert ("mag" ∈ df_columns dets) as Hmag
    by (apply Hc, list_elem_of_In; simpl; tauto).
  assert ("flux" ∈ df_columns dets) as Hflux
    by (apply Hc, list_elem_of_In; simpl; tauto).
  assert (reasonable_ranges dets = Raise TypeError) as Hrr.
  { unfold reasonable_ranges.
    rewrite !(getitem_present dets "mag") by done.
    rewrite (getitem_present dets "flux") by done.
    cbn [mbind result_bind].
    destruct (numeric dets "mag") eqn:E.
    - rewrite !(compare_num_numeric _ dets "mag") by done.
      cbn [mbind result_bind].
      destruct Hs as [Hs|Hs]; [by rewrite (numeric_false _ _ _ _ Hr Hs) in E|].
      by rewrite (compare_num_text _ dets "flux")
        by apply (numeric_false _ _ _ _ Hr Hs).
    - by rewrite !(compare_num_text _ dets "mag"). }
  unfold validate_all, read_csv. rewrite Hd, Hi, Hm. simpl.
  unfold check_nans. rewrite Hn. simpl.
  unfold check_labels, labels_match.
  rewrite (getitem_present dets "is_injection") by done. simpl.
  rewrite (getitem_present (select flagged dets) "injection_id") by done. simpl.
  rewrite (getitem_present inj "injection_id") by done. simpl.
  unfold check_ranges. by rewrite Hrr.
Qed.

Lemma X7_text_raises_TypeError_witness :
  validate_all (dir_of str_dets no_injections) = Raise TypeError.
Proof.
  apply (X7_text_raises_TypeError _ str_dets no_injections object_meta
           (mk_row [("object_id", Num 1); ("epoch_day", Num 1);
                    ("mag", Str "faint"); ("flux", Num 1)]) "faint");
    try reflexivity.
  - intros c Hc. apply list_elem_of_In in Hc. apply list_elem_of_In.
    simpl in *. tauto.
  - apply list_elem_of_In. simpl. tauto.
  - apply list_elem_of_In. simpl. tauto.
  - apply list_elem_of_In. simpl. tauto.
  - by left.
  - left. vm_refl.
Defined.

(** X8: with the critical columns and [is_injection] present, a
    detections table without [injection_id], or an injection table
    without it, makes [validate_all] raise [KeyError] for
    [injection_id] at the label check. *)
Theorem X8_missing_injection_id dir dets inj meta :
  dir !! "detections.csv" = Some dets →
  dir !! "injections.csv" = Some inj →
  dir !! "object_meta.csv" = Some meta →
  (∀ c, c ∈ critical_cols → c ∈ df_columns dets) →
  "is_injection" ∈ df_columns dets →
  "injection_id" ∉ df_columns dets ∨ "injection_id" ∉ df_columns inj →
  validate_all dir = Raise (KeyError "injection_id").
Proof.
  intros Hd Hi Hm Hc H1 H2.
  destruct (no_nans_returns dets Hc) as [nn Hn].
  unfold validate_all, read_csv. rewrite Hd, Hi, Hm. simpl.
  unfold check_nans. rewrite Hn. simpl.
  unfold check_labels, labels_match.
  rewrite (getitem_present dets "is_injection") by done. simpl.
  destruct (decide ("injection_id" ∈ df_columns dets)) as [Hin|Hout].
  - rewrite (getitem_present (select flagged dets) "injection_id") by done.
    simpl. destruct H2 as [H2|H2]; [done|].
    by rewrite (getitem_absent inj "injection_id").
  - by rewrite (getitem_absent (select flagged dets) "injection_id").
Qed.

Lemma X8_missing_injection_id_witness :
  validate_all (dir_of ex_df (drop_column "injection_id" ex_inj))
  = Raise (KeyError "injection_id").
Proof.
  apply (X8_missing_injection_id _ ex_df (drop_column "injection_id" ex_inj)
           object_meta); try reflexivity.
  - intros c Hc. apply list_elem_of_In in Hc. apply list_elem_of_In.
    simpl in *. tauto.
  - apply list_elem_of_In. simpl. tauto.
  - right. apply (proj1 (bool_decide_eq_false _)). vm_refl.
Defined.

(** ** Sparsity and shape *)

Lemma filter_length_lt {A} (p : A → bool) (l : list A) x :
  x ∈ l → p x = false → length (List.filter p l) < length l.
Proof.
  induction l as [|y l IH]; [by rewrite elem_of_nil|].
  rewrite elem_of_cons. intros [->|Hx] Hp; simpl.
  - rewrite Hp. pose proof (filter_length_le p l). lia.
  - specialize (IH Hx Hp). destruct (p y); simpl; lia.
Qed.

Lemma ratio_below_one (n m : nat) :
  n < S m →
  (0 <= Qred (inject_Z (Z.of_nat n) / inject_Z (Z.of_nat (S m))))%Q ∧
  (Qred (inject_Z (Z.of_nat n) / inject_Z (Z.of_nat (S m))) < 1)%Q.
Proof.
  intros H. rewrite Qred_correct.
  assert (0 < inject_Z (Z.of_nat (S m)))%Q as Hpos.
  { change 0%Q with (inject_Z 0). rewrite <- Zlt_Qlt. lia. }
  split.
  - apply Qle_shift_div_l; [done|]. rewrite Qmult_0_l.
    change 0%Q with (inject_Z 0). rewrite <- Zle_Qle. lia.
  - apply Qlt_shift_div_r; [done|]. rewrite Qmult_1_l.
    rewrite <- Zlt_Qlt. lia.
Qed.

(** The sparsity of a pivoted matrix is a fraction below 1, every row
    holding an observed cell, or [NaN] when the matrix has no cell. *)
Lemma pivot_sparsity df index columns values f ts :
  pivot_table df index columns values f = Ok ts →
  match sparsity ts with
  | Some q => (0 <= q)%Q ∧ (q < 1)%Q ∧ (0 < matrix_size ts)%nat
  | None => matrix_size ts = 0%nat
  end.
Proof.
  intros H. pose proof H as Hts. apply pivot_table_Ok in Hts.
  unfold sparsity, fdiv.
  destruct (matrix_size ts) as [|m] eqn:Hsize; [done|].
  assert (count_nan (mx_values ts) < S m) as Hlt.
  { rewrite <- Hsize. subst ts. rewrite <- unstack_size.
    set (agged := pivot_groups df index columns values f).
    assert (all_observed agged) as Hobs by apply dropna_groups_observed.
    destruct (mx_values (unstack agged)) as [|r vals] eqn:Hv.
    { pose proof (unstack_size agged) as Hs. rewrite Hv in Hs. simpl in Hs.
      fold agged in Hsize. lia. }
    assert (existsb notna r = true) as Hr.
    { apply (unstack_row_observed agged); [done|]. rewrite Hv. left. }
    apply existsb_exists in Hr as (c & Hc & Hna).
    unfold count_nan. apply filter_length_lt with c.
    - simpl. apply elem_of_app. left. by apply list_elem_of_In.
    - unfold notna in Hna. by destruct (isna c). }
  destruct (ratio_below_one _ _ Hlt) as [H0 H1].
  split_and!; [done | done | lia].
Qed.

(** X9: whenever [validate_all] returns, the [sparsity] entry is a
    fraction at least 0 and strictly below 1, or [NaN] when the matrix
    has no cell: since the pivot keeps only objects and epochs with an
    observed [mag], a sparsity of 1 never comes out. *)
Theorem X9_sparsity_below_one dir dets ok rep :
  dir !! "detections.csv" = Some dets →
  validate_all dir = Ok (ok, rep) →
  ∃ s rows cols,
    rep !! "sparsity" = Some (VFloat s) ∧
    rep !! "matrix_shape" = Some (VShape (rows, cols)) ∧
    match s with
    | Some q => (0 <= q)%Q ∧ (q < 1)%Q ∧ (0 < rows * cols)%nat
    | None => (rows * cols = 0)%nat
    end.
Proof.
  intros Hd H.
  destruct (validate_all_matrix dir dets ok rep Hd H) as (ts & Hp & Hm & Hs).
  exists (sparsity ts), (length (mx_index ts)), (length (mx_columns ts)).
  split_and!; [done..|].
  apply (pivot_sparsity _ _ _ _ _ _ Hp).
Qed.

Lemma X9_sparsity_below_one_witness :
  ∃ s rows cols,
    results (final ex_df true true false) !! "sparsity" = Some (VFloat s) ∧
    results (final ex_df true true false) !! "matrix_shape"
      = Some (VShape (rows, cols)) ∧
    match s with
    | Some q => (0 <= q)%Q ∧ (q < 1)%Q ∧ (0 < rows * cols)%nat
    | None => (rows * cols = 0)%nat
    end.
Proof.
  apply (X9_sparsity_below_one (dir_of ex_df ex_inj) ex_df true);
    [reflexivity | vm_refl].
Defined.

(** X10: the validator and the transformer agree on the matrix: when both
    return on the same data directory, the [matrix_shape] of the report
    is ([n_objects], [n_timestamps]) of the metadata. *)
Theorem X10_report_shape_is_metadata_shape dir out out' ts labels md ok rep :
  validate_all dir = Ok (ok, rep) →
  create_pipeline_ready_data dir out = (out', Ok (ts, labels, md)) →
  rep !! "matrix_shape" = Some (VShape (n_objects md, n_timestamps md)).
Proof.
  intros Hv Hc.
  apply create_pipeline_ready_data_Ok in Hc
    as (dets & ts0 & l0 & rate & Hd & Hp & _ & _ & -> & _ & -> & _).
  destruct (validate_all_matrix dir dets ok rep Hd Hv) as (ts' & Hp' & Hm & _).
  assert (ts' = ts0) as -> by congruence.
  exact Hm.
Qed.

Lemma X10_report_shape_is_metadata_shape_witness :
  results (final ex_df true true false) !! "matrix_shape"
  = Some (VShape (n_objects ex_metadata, n_timestamps ex_metadata)).
Proof.
  apply (X10_report_shape_is_metadata_shape (dir_of ex_df ex_inj) ∅ ex_out
           ex_ts ex_labels ex_metadata true); vm_refl.
Defined.

(** ** Cells of the time-series matrix *)

Lemma nanmean_numbers vs qs :
  dropna vs = map Num qs → qs ≠ [] →
  ∃ q, nanmean vs = Some (Num q) ∧
       (q == Qsum qs / inject_Z (Z.of_nat (length qs)))%Q.
Proof.
  unfold nanmean. intros -> Hne.
  assert (omap to_num (map Num qs) = qs) as ->.
  { clear Hne. induction qs as [|q qs IH]; [done|]. simpl. f_equal. exact IH. }
  destruct qs as [|q qs]; [done|]. simpl.
  eexists. split; [reflexivity|]. apply Qred_correct.
Qed.

(** X11: each cell of the pivoted mean-mag matrix, as the validator and
    the transformer build it, is the mean of [mag] over the detections at
    its (object, epoch) that carry one, their sum over their count, and
    is missing when there is none. *)
Theorem X11_cell_is_mean_mag dets ts i j o e :
  pivot_mag dets = Ok ts →
  mx_index ts !! i = Some o →
  mx_columns ts !! j = Some e →
  ∃ mags,
    mags = map (λ r : row, r !! "mag")
             (List.filter (at_key "object_id" "epoch_day" o e) (df_rows dets)) ∧
    mx_values ts !! i ≫= (.!! j) = Some (nanmean mags) ∧
    (dropna mags = [] → nanmean mags = None) ∧
    (∀ qs, dropna mags = map Num qs → qs ≠ [] →
           ∃ q, nanmean mags = Some (Num q) ∧
                (q == Qsum qs / inject_Z (Z.of_nat (length qs)))%Q).
Proof.
  intros Hp Hi Hj. eexists. split; [reflexivity|]. split_and!.
  - by apply (pivot_cell dets "object_id" "epoch_day" "mag" Mean).
  - unfold nanmean. by intros ->.
  - apply nanmean_numbers.
Qed.

(** The same, at the example table: object 2 at epoch 5 has the two mags
    22 and 24. *)
Lemma X11_cell_is_mean_mag_witness :
  ∃ mags,
    mags = map (λ r : row, r !! "mag")
             (List.filter (at_key "object_id" "epoch_day" (Num 2) (Num 5))
                (df_rows ex_df)) ∧
    [Some (Num 20); NaN; Some (Num 21); NaN; Some (Num 23)] !! 4%nat
      = Some (nanmean mags).
Proof.
  destruct (X11_cell_is_mean_mag ex_df
              {| mx_index := [Num 1; Num 2];
                 mx_columns := [Num 1; Num 2; Num 3; Num 4; Num 5];
                 mx_values :=
                   [[NaN; Some (Num 5); NaN; Some (Num 7); NaN];
                    [Some (Num 20); NaN; Some (Num 21); NaN; Some (Num 23)]] |}
              1%nat 4%nat (Num 2) (Num 5))
    as (mags & Hm & Hc & _); [vm_refl | reflexivity | reflexivity |].
  exists mags. split; [exact Hm | exact Hc].
Defined.

Lemma last_observed_in l v : last_observed l = Some v → Some v ∈ l.
Proof.
  induction l as [|c l IH]; [done|]. simpl.
  destruct (last_observed l) as [w|].
  - intros [= ->]. right. by apply IH.
  - intros ->. left.
Qed.

Lemma first_observed_in l v : first_observed l = Some v → Some v ∈ l.
Proof.
  induction l as [|[w|] l IH]; [done|..]; simpl.
  - intros [= ->]. left.
  - intros H. right. by apply IH.
Qed.

Lemma last_observed_take l i v :
  l !! i = Some (Some v) → last_observed (take (S i) l) = Some v.
Proof.
  revert i. induction l as [|c l IH]; intros [|i]; simpl; try done.
  - by intros [= ->].
  - intros H. apply IH in H. simpl in H. by rewrite H.
Qed.

Lemma last_observed_take_None l i :
  i < length l → last_observed (take (S i) l) = None → l !! i = Some None.
Proof.
  revert i. induction l as [|c l IH]; intros [|i]; simpl; try lia.
  - by intros _ ->.
  - intros Hi H. apply IH; [lia|].
    simpl. by destruct (last_observed _).
Qed.

(** Filling keeps every observed cell and copies only cells of the row. *)
Lemma fill_keeps_observations r :
  length (bfill_row (ffill_row r)) = length r ∧
  (∀ j v, r !! j = Some (Some v) → bfill_row (ffill_row r) !! j = Some (Some v)) ∧
  (∀ c, c ∈ bfill_row (ffill_row r) → c ∈ r).
Proof.
  split_and!.
  - unfold ffill_row. by rewrite length_bfill_row, length_ffill_from.
  - intros j v H. rewrite fill_rule by (by apply lookup_lt_Some in H).
    by rewrite (last_observed_take _ _ _ H).
  - intros c Hc. apply list_elem_of_lookup in Hc as [i Hi].
    assert (i < length r) as Hlt.
    { apply lookup_lt_Some in Hi. unfold ffill_row in Hi.
      by rewrite length_bfill_row, length_ffill_from in Hi. }
    rewrite fill_rule in Hi by done. injection Hi as <-.
    destruct (last_observed (take (S i) r)) as [v|] eqn:E.
    + apply last_observed_in in E. by apply (subseteq_take (S i) r).
    + destruct (first_observed r) as [v|] eqn:F.
      * by apply first_observed_in.
      * apply list_elem_of_lookup. exists i.
        by apply last_observed_take_None.
Qed.

(** X12: filling the time-series matrix never changes an observed cell
    and never invents a value: each written row has the length of the
    pivoted row, agrees with it wherever it has a value, and holds only
    cells that occur in it. *)
Theorem X12_fill_keeps_observations dir out out' ts labels md dets ts0 i r0 :
  dir !! "detections.csv" = Some dets →
  pivot_mag dets = Ok ts0 →
  create_pipeline_ready_data dir out = (out', Ok (ts, labels, md)) →
  mx_values ts0 !! i = Some r0 →
  ∃ r, mx_values ts !! i = Some r ∧
       length r = length r0 ∧
       (∀ j v, r0 !! j = Some (Some v) → r !! j = Some (Some v)) ∧
       (∀ c, c ∈ r → c ∈ r0).
Proof.
  intros Hd Hp Hc Hi.
  apply create_pipeline_ready_data_Ok in Hc
    as (dets' & ts0' & l0 & rate & Hd' & Hp' & _ & _ & -> & _ & _ & _).
  assert (dets' = dets) as -> by congruence.
  assert (ts0' = ts0) as -> by congruence.
  exists (bfill_row (ffill_row r0)). split.
  - simpl. rewrite map_map, list_lookup_fmap, Hi. done.
  - apply fill_keeps_observations.
Qed.

Lemma X12_fill_keeps_observations_witness :
  ∃ r, mx_values ex_ts !! 0%nat = Some r ∧
       length r = 5%nat ∧
       (∀ j v, [NaN; Some (Num 5); NaN; Some (Num 7); NaN] !! j = Some (Some v) →
               r !! j = Some (Some v)) ∧
       (∀ c, c ∈ r → c ∈ [NaN; Some (Num 5); NaN; Some (Num 7); NaN]).
Proof.
  apply (X12_fill_keeps_observations (dir_of ex_df ex_inj) ∅ ex_out ex_ts
           ex_labels ex_metadata ex_df
           {| mx_index := [Num 1; Num 2];
              mx_columns := [Num 1; Num 2; Num 3; Num 4; Num 5];
              mx_values :=
                [[NaN; Some (Num 5); NaN; Some (Num 7); NaN];
                 [Some (Num 20); NaN; Some (Num 21); NaN; Some (Num 23)]] |}
           0%nat [NaN; Some (Num 5); NaN; Some (Num 7); NaN]);
    [reflexivity | vm_refl | vm_refl | reflexivity].
Defined.

(** ** What the transformer leaves behind *)

(** X13: a run of [create_pipeline_ready_data] that raises has written
    none of its files, or the time-series matrix only, or the two
    matrices; it never writes the metadata, and it touches no other
    file. *)
Theorem X13_failed_run_writes_a_prefix dir out out' e :
  create_pipeline_ready_data dir out = (out', Raise e) →
  (out' = out ∨
   (∃ ts, out' = <["time_series_matrix.csv" := CsvFile ts]> out) ∨
   (∃ ts labels,
      out' = <["anomaly_labels.csv" := CsvFile labels]>
               (<["time_series_matrix.csv" := CsvFile ts]> out))) ∧
  out' !! "data_metadata.json" = out !! "data_metadata.json" ∧
  (∀ name, name ≠ "time_series_matrix.csv" → name ≠ "anomaly_labels.csv" →
           out' !! name = out !! name).
Proof.
  rewrite create_pipeline_ready_data_unfold.
  destruct (dir !! "detections.csv") as [dets|].
  2: { intros [= <- <-]. split_and!; [by left | done | done]. }
  destruct (pivot_mag dets) as [ts0|].
  2: { intros [= <- <-]. split_and!; [by left | done | done]. }
  destruct (pivot_labels dets) as [l0|]; simpl.
  2: { intros [= <- <-]. split_and!.
       - right. left. by eexists.
       - by rewrite lookup_insert_ne.
       - intros name H1 H2. by rewrite lookup_insert_ne. }
  destruct (values_mean _); [done|].
  intros [= <- <-]. split_and!.
  - right. right. by eexists _, _.
  - by rewrite !lookup_insert_ne.
  - intros name H1 H2. by rewrite !lookup_insert_ne.
Qed.

(** The same, at the example table without its [is_injection] column:
    only the time-series matrix is there. *)
Lemma X13_failed_run_writes_a_prefix_witness :
  create_pipeline_ready_data
    (dir_of (drop_column "is_injection" ex_df) ex_inj) empty_out
  = (ts_only_out, Raise (KeyError "is_injection")) ∧
  ts_only_out !! "data_metadata.json" = empty_out !! "data_metadata.json".
Proof.
  assert (create_pipeline_ready_data
            (dir_of (drop_column "is_injection" ex_df) ex_inj) empty_out
          = (ts_only_out, Raise (KeyError "is_injection"))) as H by vm_refl.
  split; [exact H|].
  exact (proj1 (proj2 (X13_failed_run_writes_a_prefix _ _ _ _ H))).
Defined.

(** X14: when the detections table can be pivoted on [mag] but has no
    [is_injection] column, [create_pipeline_ready_data] raises
    [KeyError] after it has written the filled time-series matrix: the
    file stays, and neither the labels nor the metadata are written. *)
Theorem X14_missing_is_injection_after_first_write dir out dets ts0 :
  dir !! "detections.csv" = Some dets →
  pivot_mag dets = Ok ts0 →
  "is_injection" ∉ df_columns dets →
  create_pipeline_ready_data dir out
  = (<["time_series_matrix.csv" := CsvFile (bfill (ffill ts0))]> out,
     Raise (KeyError "is_injection")).
Proof.
  intros Hd Hp Hn. rewrite create_pipeline_ready_data_unfold, Hd, Hp.
  unfold pivot_labels, pivot_table.
  by rewrite (getitem_absent dets "is_injection").
Qed.

Lemma X14_missing_is_injection_after_first_write_witness :
  create_pipeline_ready_data (dir_of (drop_column "is_injection" ex_df) ex_inj) ∅
  = (<["time_series_matrix.csv" :=
         CsvFile (bfill (ffill
           {| mx_index := [Num 1; Num 2];
              mx_columns := [Num 1; Num 2; Num 3; Num 4; Num 5];
              mx_values :=
                [[NaN; Some (Num 5); NaN; Some (Num 7); NaN];
                 [Some (Num 20); NaN; Some (Num 21); NaN; Some (Num 23)]] |}))]> ∅,
     Raise (KeyError "is_injection")).
Proof.
  apply (X14_missing_is_injection_after_first_write _ _
           (drop_column "is_injection" ex_df)); [reflexivity | vm_refl |].
  apply (proj1 (bool_decide_eq_false _)). vm_refl.
Defined.

(** ** Cells of the label matrix *)

Lemma foldl_scalar_max_in v vs : foldl scalar_max v vs ∈ v :: vs.
Proof.
  revert v. induction vs as [|w vs IH]; intros v; simpl; [left|].
  specialize (IH (scalar_max v w)). unfold scalar_max in *.
  destruct (scalar_leb v w).
  - by right.
  - apply elem_of_cons in IH as [->|IH]; [left | by do 2 right].
Qed.

Lemma nanmax_in vs v : nanmax vs = Some v → Some v ∈ vs.
Proof.
  unfold nanmax. destruct (dropna vs) as [|w ws] eqn:E; [done|].
  intros [= <-].
  assert (foldl scalar_max w ws ∈ dropna vs) as H
    by (rewrite E; apply foldl_scalar_max_in).
  unfold dropna in H. apply list_elem_of_omap in H as (c & Hc & Hv).
  simpl in Hv. by subst c.
Qed.

Lemma unstack_cells agged r c :
  r ∈ mx_values (unstack agged) → c ∈ r →
  c = None ∨ ∃ kv, kv ∈ agged ∧ kv.2 = c.
Proof.
  simpl. intros Hr Hc.
  apply list_elem_of_fmap in Hr as (o & -> & _).
  apply list_elem_of_fmap in Hc as (e & -> & _).
  unfold lookup_key. destruct (List.find _ agged) as [kv|] eqn:F; [|by left].
  apply find_some in F as [F _]. right. exists kv.
  by rewrite list_elem_of_In.
Qed.

(** A cell of the pivoted label matrix is missing or is the
    [is_injection] value of a detection. *)
Lemma label_cell_origin dets l0 r c :
  pivot_labels dets = Ok l0 → r ∈ mx_values l0 → c ∈ r →
  c = None ∨ ∃ d v, d ∈ df_rows dets ∧ d !! "is_injection" = Some v ∧ c = Some v.
Proof.
  intros H Hr Hc. apply pivot_table_Ok in H. subst l0.
  destruct (unstack_cells _ r c Hr Hc) as [->|(kv & Hkv & <-)]; [by left|].
  unfold pivot_groups in Hkv.
  apply list_elem_of_In, filter_In in Hkv as [Hkv _].
  apply in_map_iff in Hkv as ([o e] & <- & _). simpl.
  rewrite group_keyed_rows.
  destruct (nanmax _) as [v|] eqn:E; [|by left].
  apply nanmax_in, list_elem_of_fmap in E as (d & Hd & Hin).
  apply list_elem_of_In, filter_In in Hin as [Hin _].
  right. exists d, v. by rewrite list_elem_of_In.
Qed.

Lemma fillna_cells v m r c :
  r ∈ mx_values (fillna v m) → c ∈ r →
  ∃ r0 c0, r0 ∈ mx_values m ∧ c0 ∈ r0 ∧ c = Some (default v c0).
Proof.
  simpl. intros Hr Hc.
  apply list_elem_of_fmap in Hr as (r0 & -> & Hr0).
  apply list_elem_of_fmap in Hc as (c0 & -> & Hc0).
  by exists r0, c0.
Qed.

(** X15: when every [is_injection] value of the detections is 0 or 1,
    every cell of the label matrix that [create_pipeline_ready_data]
    returns is 0 or 1, and none is missing. *)
Theorem X15_label_cells_are_flags dir out out' ts labels md dets r c :
  dir !! "detections.csv" = Some dets →
  (∀ d v, d ∈ df_rows dets → d !! "is_injection" = Some v →
          ∃ q, v = Num q ∧ (q == 0 ∨ q == 1)%Q) →
  create_pipeline_ready_data dir out = (out', Ok (ts, labels, md)) →
  r ∈ mx_values labels → c ∈ r →
  ∃ q, c = Some (Num q) ∧ (q == 0 ∨ q == 1)%Q.
Proof.
  intros Hd Hflags H Hr Hc.
  apply create_pipeline_ready_data_Ok in H
    as (dets' & ts0 & l0 & rate & Hd' & _ & Hl & _ & _ & -> & _ & _).
  assert (dets' = dets) as -> by congruence.
  destruct (fillna_cells _ _ _ _ Hr Hc) as (r0 & c0 & Hr0 & Hc0 & ->).
  destruct (label_cell_origin _ _ _ _ Hl Hr0 Hc0) as [->|(d & v & Hin & Hv & ->)].
  - exists 0%Q. split; [done|]. by left.
  - destruct (Hflags d v Hin Hv) as (q & -> & Hq). by exists q.
Qed.

Lemma ex_df_flags d :
  d ∈ df_rows ex_df →
  ∀ v, d !! "is_injection" = Some v → ∃ q, v = Num q ∧ (q == 0 ∨ q == 1)%Q.
Proof.
  revert d.
  apply (proj1 (Forall_forall
                  (λ d : row, ∀ v, d !! "is_injection" = Some v →
                                   ∃ q, v = Num q ∧ (q == 0 ∨ q == 1)%Q)
                  (df_rows ex_df))).
  unfold ex_df, ex_rows. cbn [df_rows].
  repeat constructor; intros v;
    (vm_compute; intros [= <-]; eexists; split; [reflexivity|]);
    (by left) || (by right).
Qed.

Lemma X15_label_cells_are_flags_witness :
  ∃ q, Some (Num 1) = Some (Num q) ∧ (q == 0 ∨ q == 1)%Q.
Proof.
  apply (X15_label_cells_are_flags (dir_of ex_df ex_inj) ∅ ex_out ex_ts
           ex_labels ex_metadata ex_df
           [Some (Num 0); Some (Num 0); Some (Num 0); Some (Num 1); Some (Num 0)]
           (Some (Num 1)));
    [reflexivity | exact (λ d v H, ex_df_flags d H v) | vm_refl | left |].
  do 3 right. left.
Defined.

Lemma numeric_cell df c r :
  numeric df c = true → r ∈ df_rows df → is_num (r !! c) = true.
Proof.
  unfold numeric. rewrite forallb_forall. intros H Hr. apply H.
  apply in_map_iff. exists r. by rewrite <- list_elem_of_In.
Qed.

(** X16: [create_pipeline_ready_data] returns whenever the detections
    file exists with the columns [object_id], [epoch_day], [mag] and
    [is_injection] and no text in the last two; it then has written
    exactly its three files, the two matrices and the metadata it
    returns, and left every other file of the output directory alone. *)
Theorem X16_returns_on_numeric_tables dir out dets :
  dir !! "detections.csv" = Some dets →
  (∀ c, c ∈ ["object_id"; "epoch_day"; "mag"; "is_injection"] →
        c ∈ df_columns dets) →
  numeric dets "mag" = true →
  numeric dets "is_injection" = true →
  ∃ ts labels md,
    create_pipeline_ready_data dir out
    = (<["data_metadata.json" := JsonFile md]>
         (<["anomaly_labels.csv" := CsvFile labels]>
            (<["time_series_matrix.csv" := CsvFile ts]> out)),
       Ok (ts, labels, md)) ∧
    ∀ name, name ∉ ["time_series_matrix.csv"; "anomaly_labels.csv";
                    "data_metadata.json"] →
            (create_pipeline_ready_data dir out).1 !! name = out !! name.
Proof.
  intros Hd Hc Hmag Hinj.
  assert (∀ c, In c ["object_id"; "epoch_day"; "mag"; "is_injection"] →
               c ∈ df_columns dets) as Hc'
    by (intros c H; by apply Hc, list_elem_of_In).
  assert (pivot_mag dets = Ok (unstack (pivot_groups dets "object_id" "epoch_day"
                                          "mag" Mean))) as Hp.
  { apply pivot_table_returns; try (apply Hc'; simpl; tauto). done. }
  assert (pivot_labels dets = Ok (unstack (pivot_groups dets "object_id" "epoch_day"
                                             "is_injection" Max))) as Hl.
  { apply pivot_table_returns; try (apply Hc'; simpl; tauto). done. }
  set (l0 := unstack (pivot_groups dets "object_id" "epoch_day" "is_injection" Max))
    in *.
  assert (∃ rate, values_mean (mx_values (fillna (Num 0) l0)) = Ok rate)
    as [rate Hrate].
  { unfold values_mean.
    assert (forallb is_num (concat (mx_values (fillna (Num 0) l0))) = true) as ->.
    { apply forallb_forall. intros c Hin.
      apply in_concat in Hin as (r & Hr & Hin).
      rewrite <- !list_elem_of_In in *.
      destruct (fillna_cells _ _ _ _ Hr Hin) as (r0 & c0 & Hr0 & Hc0 & ->).
      destruct (label_cell_origin _ _ _ _ Hl Hr0 Hc0)
        as [->|(d & v & Hd' & Hv & ->)]; [done|].
      simpl. pose proof (numeric_cell _ _ _ Hinj Hd') as Hn.
      by rewrite Hv in Hn. }
    destruct (existsb isna _); eauto. }
  eexists _, _, _.
  rewrite create_pipeline_ready_data_unfold, Hd, Hp, Hl. cbv beta iota zeta.
  rewrite Hrate. split; [reflexivity|].
  intros name Hname. cbn [fst].
  rewrite !lookup_insert_ne; [done|..]; intros <-; apply Hname;
    apply list_elem_of_In; simpl; tauto.
Qed.

Lemma X16_returns_on_numeric_tables_witness :
  ∃ ts labels md,
    create_pipeline_ready_data (dir_of ex_df ex_inj) empty_out
    = (<["data_metadata.json" := JsonFile md]>
         (<["anomaly_labels.csv" := CsvFile labels]>
            (<["time_series_matrix.csv" := CsvFile ts]> empty_out)),
       Ok (ts, labels, md)) ∧
    ∀ name, name ∉ ["time_series_matrix.csv"; "anomaly_labels.csv";
                    "data_metadata.json"] →
            (create_pipeline_ready_data (dir_of ex_df ex_inj) empty_out).1 !! name
            = empty_out !! name.
Proof.
  apply (X16_returns_on_numeric_tables _ _ ex_df); [reflexivity | | vm_refl..].
  intros c Hc. apply list_elem_of_In in Hc. apply list_elem_of_In.
  simpl in *. tauto.
Defined.

(** ** The anomaly rate *)

Lemma Qsum_flags qs :
  (∀ q, q ∈ qs → (q == 0 ∨ q == 1)%Q) →
  (0 <= Qsum qs)%Q ∧ (Qsum qs <= inject_Z (Z.of_nat (length qs)))%Q.
Proof.
  induction qs as [|q qs IH]; intros H; simpl Qsum.
  - split; apply Qle_refl.
  - destruct IH as [IH0 IH1]; [intros x Hx; apply H; by right|].
    assert (0 <= q ∧ q <= 1)%Q as [Hq0 Hq1].
    { destruct (H q) as [E|E]; [left | |]; rewrite E; split;
        (apply Qle_refl || done). }
    split.
    + rewrite <- (Qplus_0_l 0). by apply Qplus_le_compat.
    + replace (Z.of_nat (length (q :: qs))) with (1 + Z.of_nat (length qs))%Z
        by (simpl length; lia).
      rewrite inject_Z_plus. by apply Qplus_le_compat.
Qed.

(** X17: when every [is_injection] value is 0 or 1, the [anomaly_rate] of
    the metadata lies between 0 and 1; it is [NaN] only when the label
    matrix has no cell. *)
Theorem X17_anomaly_rate_is_a_fraction dir out out' ts labels md dets :
  dir !! "detections.csv" = Some dets →
  (∀ d v, d ∈ df_rows dets → d !! "is_injection" = Some v →
          ∃ q, v = Num q ∧ (q == 0 ∨ q == 1)%Q) →
  create_pipeline_ready_data dir out = (out', Ok (ts, labels, md)) →
  match anomaly_rate md with
  | Some rate => (0 <= rate)%Q ∧ (rate <= 1)%Q
  | None => concat (mx_values labels) = []
  end.
Proof.
  intros Hd Hflags H.
  apply create_pipeline_ready_data_Ok in H
    as (dets' & ts0 & l0 & rate & Hd' & _ & Hl & Hrate & _ & -> & -> & _).
  assert (dets' = dets) as -> by congruence.
  destruct (values_mean_numbers _ _ (fillna_observed _ _) Hrate) as (qs & Hqs & ->).
  assert (∀ q, q ∈ qs → (q == 0 ∨ q == 1)%Q) as Hall.
  { intros q Hq.
    assert (Some (Num q) ∈ concat (mx_values (fillna (Num 0) l0))) as Hin
      by (rewrite Hqs; by apply (list_elem_of_fmap_2 (λ q, Some (Num q)))).
    apply list_elem_of_In, in_concat in Hin as (r & Hr & Hin).
    rewrite <- !list_elem_of_In in *.
    destruct (fillna_cells _ _ _ _ Hr Hin) as (r0 & c0 & Hr0 & Hc0 & E).
    destruct (label_cell_origin _ _ _ _ Hl Hr0 Hc0)
      as [->|(d & v & Hd'' & Hv & ->)]; simpl in E.
    - injection E as ->. by left.
    - destruct (Hflags d v Hd'' Hv) as (q' & -> & Hq'). by injection E as ->. }
  unfold metadata_of. cbn [anomaly_rate]. unfold fdiv.
  destruct (length qs) as [|n] eqn:Hlen.
  - rewrite Hqs. by destruct qs.
  - destruct (Qsum_flags qs Hall) as [H0 H1]. rewrite Hlen in H1.
    assert (0 < inject_Z (Z.of_nat (S n)))%Q as Hpos.
    { change 0%Q with (inject_Z 0). rewrite <- Zlt_Qlt. lia. }
    rewrite Qred_correct. split.
    + apply Qle_shift_div_l; [done|]. by rewrite Qmult_0_l.
    + apply Qle_shift_div_r; [done|]. by rewrite Qmult_1_l.
Qed.

Lemma X17_anomaly_rate_is_a_fraction_witness :
  (0 <= 1 # 10)%Q ∧ (1 # 10 <= 1)%Q.
Proof.
  apply (X17_anomaly_rate_is_a_fraction (dir_of ex_df ex_inj) ∅ ex_out ex_ts
           ex_labels ex_metadata ex_df);
    [reflexivity | exact (λ d v H, ex_df_flags d H v) | vm_refl].
Defined.

(** ** Order of the labels *)

Lemma scalar_leb_total a b : scalar_leb a b = true ∨ scalar_leb b a = true.
Proof.
  destruct a as [x|s], b as [y|t]; simpl; auto.
  - destruct (Qlt_le_dec x y) as [H|H].
    + left. by apply Qle_bool_iff, Qlt_le_weak.
    + right. by apply Qle_bool_iff.
  - apply String.leb_total.
Qed.

Section InsertSorted.
Context {A : Type} (eqb leb : A -> A -> bool).
Hypothesis eqb_sym : ∀ a b, eqb a b = eqb b a.
Hypothesis leb_total : ∀ a b, leb a b = true ∨ leb b a = true.

Let lt (a b : A) : Prop := leb a b = true ∧ eqb a b = false.

Lemma insert_unique_HdRel x y l :
  lt y x → HdRel lt y l → HdRel lt y (insert_unique eqb leb x l).
Proof.
  intros Hyx Hl. destruct l as [|z l]; simpl; [by constructor|].
  apply HdRel_inv in Hl.
  destruct (eqb x z); [by constructor|].
  destruct (leb x z); by constructor.
Qed.

Lemma insert_unique_sorted x l :
  Sorted lt l → Sorted lt (insert_unique eqb leb x l).
Proof.
  induction 1 as [|y l Hs IH Hhd]; simpl; [by repeat constructor|].
  destruct (eqb x y) eqn:E; [by constructor|].
  destruct (leb x y) eqn:L.
  - constructor; [by constructor|]. by constructor.
  - constructor; [done|]. apply insert_unique_HdRel; [|done].
    split; [|by rewrite eqb_sym].
    destruct (leb_total x y); [congruence | done].
Qed.

Lemma sort_unique_sorted l : Sorted lt (sort_unique eqb leb l).
Proof.
  induction l as [|x l IH]; simpl; [constructor|].
  by apply insert_unique_sorted.
Qed.
End InsertSorted.

(** X18: the row labels and the column labels of every pivoted matrix,
    the validator's and the two of the transformer, are strictly
    ascending: each label comes before the next one and differs from
    it. *)
Theorem X18_labels_strictly_ascending df index columns values f m :
  pivot_table df index columns values f = Ok m →
  Sorted scalar_lt (mx_index m) ∧ Sorted scalar_lt (mx_columns m).
Proof.
  intros H. apply pivot_table_Ok in H. subst m. simpl.
  split; apply sort_unique_sorted;
    auto using scalar_eqb_sym, scalar_leb_total.
Qed.

Lemma X18_labels_strictly_ascending_witness :
  Sorted scalar_lt [Num 1; Num 2] ∧
  Sorted scalar_lt [Num 1; Num 2; Num 3; Num 4; Num 5].
Proof.
  apply (X18_labels_strictly_ascending ex_df "object_id" "epoch_day" "mag" Mean
           {| mx_index := [Num 1; Num 2];
              mx_columns := [Num 1; Num 2; Num 3; Num 4; Num 5];
              mx_values :=
                [[NaN; Some (Num 5); NaN; Some (Num 7); NaN];
                 [Some (Num 20); NaN; Some (Num 21); NaN; Some (Num 23)]] |}).
  vm_refl.
Defined.

(** ** The entry point *)

(** The items of a returned report: its seven entries, in the order of
    their assignment. *)
Lemma items_of_report dir dets ok rep :
  dir !! "detections.csv" = Some dets →
  validate_all dir = Ok (ok, rep) →
  ∃ nn lm rr ts,
    pivot_mag dets = Ok ts ∧
    rep = results (final dets nn lm rr) ∧
    items rep =
      [("columns_ok", VBool (columns_ok dets)); ("no_nans", VBool nn);
       ("matrix_ok", VBool true); ("matrix_shape", VShape (shape ts));
       ("sparsity", VFloat (sparsity ts)); ("labels_match", VBool lm);
       ("reasonable_ranges", VBool rr)].
Proof.
  intros Hd H.
  destruct (validate_all_matrix _ _ _ _ Hd H) as (ts & Hp & Hshape & Hsp).
  apply validate_all_Ok in H
    as (dets' & inj & meta & nn & lm & rr & Hd' & _ & _ & _ & _ & _ & _ & ->).
  assert (dets' = dets) as -> by congruence.
  exists nn, lm, rr, ts. split_and!; [done..|].
  unfold items, report_keys. cbn [omap list_omap].
  rewrite final_columns_ok, final_no_nans, final_matrix_ok, Hshape, Hsp,
    final_labels_match, final_reasonable_ranges, Hp.
  reflexivity.
Qed.

(** X19: when [validate_all] returns, the script prints its start and end
    messages, then every entry of the report exactly once, in the order
    the checks assigned them, then the overall flag and [Done.]; it ends
    normally whether the flag is true or false. *)
Theorem X19_main_prints_the_report dir ok rep :
  validate_all dir = Ok (ok, rep) →
  ∃ stats,
    main dir =
      (([Message "Running dataset validation..."; Message "Validation complete.";
         Message "Validation statistics:"] ++
        map (λ kv : string * value, Statistic kv.1 kv.2) stats ++
        [Ready ok; Message "Done."])%list,
       Ok ()) ∧
    map fst stats = report_keys ∧
    list_to_map stats = rep.
Proof.
  intros H. unfold main. rewrite H. exists (items rep).
  split; [done|].
  assert (∃ dets, dir !! "detections.csv" = Some dets) as [dets Hd].
  { apply validate_all_Ok in H as (dets & _ & _ & _ & _ & _ & Hd & _). eauto. }
  destruct (items_of_report _ _ _ _ Hd H) as (nn & lm & rr & ts & Hp & -> & ->).
  split; [done|].
  unfold final, set_result, check_pivot, check_columns. rewrite Hp.
  destruct (missing_cols dets) eqn:E; unfold columns_ok; rewrite E; simpl;
    apply map_eq; intros k;
    repeat (rewrite lookup_insert; case_decide; [by subst; simplify_map_eq|]);
    by simplify_map_eq.
Qed.

Lemma X19_main_prints_the_report_witness :
  ∃ stats,
    main (dir_of nan_dets no_injections) =
      (([Message "Running dataset validation..."; Message "Validation complete.";
         Message "Validation statistics:"] ++
        map (λ kv : string * value, Statistic kv.1 kv.2) stats ++
        [Ready true; Message "Done."])%list,
       Ok ()) ∧
    map fst stats = report_keys ∧
    list_to_map stats = results (final nan_dets false true true).
Proof.
  apply (X19_main_prints_the_report (dir_of nan_dets no_injections) true).
  vm_refl.
Defined.

(** When [validate_all] raises, the script has printed its start message
    only and ends with the same exception. *)
Lemma main_propagates dir e :
  validate_all dir = Raise e →
  main dir = ([Message "Running dataset validation..."], Raise e).
Proof. intros H. unfold main. by rewrite H. Qed.

(** ** The transformer and its inputs *)

(** The transformer does not guard its pivot: when the mean-mag pivot
    raises, the exception propagates and nothing has been written. *)
Lemma create_pipeline_ready_data_unguarded dir out dets e :
  dir !! "detections.csv" = Some dets →
  pivot_mag dets = Raise e →
  create_pipeline_ready_data dir out = (out, Raise e).
Proof.
  intros Hd Hp. by rewrite create_pipeline_ready_data_unfold, Hd, Hp.
Qed.

(** X20: the transformer reads [detections.csv] only: two data
    directories with the same detections file give the same files and
    the same result, whatever their injections and object metadata. *)
Theorem X20_only_detections_are_read dir dir' out :
  dir !! "detections.csv" = dir' !! "detections.csv" →
  create_pipeline_ready_data dir out = create_pipeline_ready_data dir' out.
Proof.
  intros H. rewrite !create_pipeline_ready_data_unfold. by rewrite H.
Qed.

Lemma X20_only_detections_are_read_witness :
  create_pipeline_ready_data (dir_of ex_df ex_inj) empty_out
  = create_pipeline_ready_data no_meta_dir empty_out.
Proof. apply X20_only_detections_are_read. reflexivity. Defined.
